(** * peal: operators, operator chains and mutation operators

    A shallow embedding of [peal/operators/operator.py] and
    [peal/operators/mutation.py].

    Conventions of the embedding.
    - Python objects that are mutated in place (individuals and their gene
      arrays) live in a heap; a population holds references into it.
    - Every method runs in a monad that threads the process-wide state (heap,
      numpy's global random generator, the log of issued warnings) and may
      raise; the state reached when an exception is raised is kept.
    - A probability and the floats of [random_sample] are only ever
      compared with each other; they are modelled by the rational numbers
      they denote, on which the comparison of floats is exact.  The bounds
      and the genes of [UniformFloat] are rational numbers too: its
      arithmetic is not rounded here, and what is proved of it is what
      rounding leaves true.
    - The floats of [NormalDist] (mean, step sizes, factors, genes) and the
      hidden genes of every individual enter float arithmetic and numpy's
      test of the sign bit; they are IEEE 754 binary64 numbers, with
      rounding, signed zeros, infinities and NaN.
    - A gene array is homogeneous, as numpy arrays are: the gene type [G] is
      a parameter ([bool] for bit genomes, [Z] for integer genomes, [Q] and
      [float] for real genomes). *)

From Stdlib Require Import ZArith NArith QArith String List Lia.
From Stdlib Require Import SpecFloat.
From stdpp Require Import base list.
Import ListNotations.

Local Open Scope string_scope.
Local Open Scope list_scope.
Local Open Scope nat_scope.

(** ** Python floats

    A Python [float] and a numpy [float64] are IEEE 754 binary64 numbers:
    53 bits of precision, largest exponent 1024.  Arithmetic rounds to
    nearest, ties to even. *)

Definition float : Type := spec_float.

Definition prec : Z := 53.

Definition emax : Z := 1024.

(** [x + y], [x * y] and [x / y] on binary64 numbers ([x / y] for a divisor
    that is not zero; Python raises for the others, see [truediv]). *)
Definition fadd : float -> float -> float := SFadd prec emax.

Definition fmul : float -> float -> float := SFmul prec emax.

Definition fdiv : float -> float -> float := SFdiv prec emax.

(** [math.isnan(x)]. *)
Definition is_nan (x : float) : bool :=
  match x with
  | S754_nan => true
  | _ => false
  end.

(** [np.signbit(x)] for an [x] that is not NaN: the sign bit, which is set
    for [-0.0] too. *)
Definition signbit (x : float) : bool :=
  match x with
  | S754_zero s | S754_infinity s | S754_finite s _ _ => s
  | S754_nan => false
  end.

(** [x == 0.0], which holds for [0.0] and for [-0.0]. *)
Definition is_zero (x : float) : bool :=
  match x with
  | S754_zero _ => true
  | _ => false
  end.

(** [math.isfinite(x)]. *)
Definition is_finite (x : float) : bool :=
  match x with
  | S754_zero _ | S754_finite _ _ _ => true
  | _ => false
  end.

(** [0.0 < abs(x) < inf]: [x] is neither a zero nor an infinity nor
    NaN. *)
Definition is_finite_nonzero (x : float) : bool :=
  match x with
  | S754_finite _ _ _ => true
  | _ => false
  end.

(** [0.0 < x < inf]. *)
Definition is_positive_finite (x : float) : bool :=
  match x with
  | S754_finite false _ _ => true
  | _ => false
  end.

(** [x] is not NaN and its sign bit is clear: [x] is [0.0], a positive
    float or the positive infinity, and not [-0.0]. *)
Definition sign_clear (x : float) : bool :=
  negb (is_nan x) && negb (signbit x).

(** [x] is not NaN and its sign bit is set: [x] is [-0.0], a negative
    float or the negative infinity. *)
Definition sign_set (x : float) : bool :=
  negb (is_nan x) && signbit x.

(** [float(z)] for an integer [z]. *)
Definition float_of_Z (z : Z) : float := binary_normalize prec emax z 0 false.

(** [1.0]. *)
Definition fone : float := float_of_Z 1.

(** ** Exceptions and the state-and-exception monad *)

(** The built-in exceptions the modelled code raises, with their messages.
    [DanglingReference] is not a Python exception: it marks a read through a
    reference the heap does not hold, which no well-formed state allows. *)
Inductive exn : Type :=
| TypeError (msg : string)
| ValueError (msg : string)
| IndexError (msg : string)
| ZeroDivisionError (msg : string)
| DanglingReference.

Inductive result (A : Type) : Type :=
| Ok (a : A)
| Raise (e : exn).
Arguments Ok {A} a.
Arguments Raise {A} e.

Definition M (S A : Type) : Type := S -> result A * S.

Definition ret {S A : Type} (a : A) : M S A := fun s => (Ok a, s).

Definition raise {S A : Type} (e : exn) : M S A := fun s => (Raise e, s).

Definition bind {S A B : Type} (m : M S A) (f : A -> M S B) : M S B :=
  fun s =>
    match m s with
    | (Ok a, s') => f a s'
    | (Raise e, s') => (Raise e, s')
    end.

Notation "x <- m ;; k" := (bind m (fun x => k))
  (at level 100, m at next level, right associativity).
Notation "m ;;; k" := (bind m (fun _ => k))
  (at level 100, right associativity).

(** [for x in xs: acc = body(acc, x)]: a Python [for] loop that carries the
    variables it rebinds as an accumulator. *)
Fixpoint for_each {S A B : Type} (xs : list A) (acc : B)
    (body : B -> A -> M S B) : M S B :=
  match xs with
  | [] => ret acc
  | x :: rest => acc' <- body acc x ;; for_each rest acc' body
  end.

(** [for x in xs: body(x)]. *)
Fixpoint for_each_ {S A : Type} (xs : list A) (body : A -> M S unit)
    : M S unit :=
  match xs with
  | [] => ret tt
  | x :: rest => body x ;;; for_each_ rest body
  end.

(** ** Containers and iteration types *)

(** A reference to an individual: its address in the heap. *)
Definition ref : Type := nat.

(** Modelled from the spec: [peal.population.Population] is not part of the
    sources at hand.  Section 3: an ordered, insertion-order-significant
    collection of individuals of variable size with indexed access and
    [integrate] (append another population's individuals).  [Population()]
    is empty, [Population(ind)] holds the one individual. *)
Definition Population : Type := list ref.

Definition Population_empty : Population := [].

Definition Population_of (ind : ref) : Population := [ind].

Definition Population_integrate (self other : Population) : Population :=
  self ++ other.

(** Modelled from the spec: [peal.community.Community] is not part of the
    sources at hand.  Section 3: an ordered collection of populations with
    the same [integrate] one level up. *)
Definition Community : Type := list Population.

Definition Community_empty : Community := [].

Definition Community_integrate (self other : Community) : Community :=
  self ++ other.

(** Modelled from the spec: [peal.operators.iteration.IterationType] is not
    part of the sources at hand.  Section 3: a policy that, given a
    container, produces a finite, restartable sequence of sub-containers
    (batches) and does not mutate the container.  An iteration type is
    called on a population or on a community. *)
Record IterationType : Type := {
  iterate_population : Population -> list Population;
  iterate_community : Community -> list Community;
}.

(** Modelled from the spec: [SingleIteration], section 4.2: one batch per
    individual of a population (the batch is a single-individual
    population), in the original order; one batch per population of a
    community. *)
Definition SingleIteration : IterationType := {|
  iterate_population := fun p => map Population_of p;
  iterate_community := fun c => map (fun p => [p]) c;
|}.

(** Modelled from the spec: the whole-container policy that section 4.2
    requires as a second first-class variant: the container is the one
    batch. *)
Definition WholeIteration : IterationType := {|
  iterate_population := fun p => [p];
  iterate_community := fun c => [c];
|}.

(** Modelled from the spec: [peal.genetics.GenePool] is not part of the
    sources at hand.  The operators only pass a pool along; a pool is
    represented by the identity of the pool object. *)
Definition GenePool : Type := nat.

(** The Python values a caller can hand to [process] or assign to
    [iter_type]. *)
Inductive pyobj : Type :=
| ObjPopulation (p : Population)
| ObjCommunity (c : Community)
| ObjIterationType (it : IterationType)
| ObjNone
| ObjInt (z : Z)
| ObjFloat (q : Q)
| ObjStr (s : string).

(** [isinstance(v, Population) or isinstance(v, Community)]. *)
Definition is_container (v : pyobj) : bool :=
  match v with
  | ObjPopulation _ | ObjCommunity _ => true
  | _ => false
  end.

(** [isinstance(v, IterationType)]. *)
Definition is_iteration_type (v : pyobj) : bool :=
  match v with
  | ObjIterationType _ => true
  | _ => false
  end.

(** [str(type(v))], as the f-string of the [iter_type] setter prints it. *)
Definition type_repr (v : pyobj) : string :=
  match v with
  | ObjPopulation _ => "<class 'peal.population.Population'>"
  | ObjCommunity _ => "<class 'peal.community.Community'>"
  | ObjIterationType _ => "<class 'peal.operators.iteration.IterationType'>"
  | ObjNone => "<class 'NoneType'>"
  | ObjInt _ => "<class 'int'>"
  | ObjFloat _ => "<class 'float'>"
  | ObjStr _ => "<class 'str'>"
  end.

(** ** Individuals, the heap and the process-wide state *)

Section Core.

Context {G : Type}.

(** Modelled from the spec: [peal.population.Individual] is not part of the
    sources at hand.  Section 3: an ordered sequence of genes, an optional
    ordered sequence of hidden genes (no hidden genes: the empty sequence)
    and a cached fitness value, absent until evaluated. *)
Record Individual : Type := mkIndividual {
  genes : list G;
  hidden_genes : list float;
  fitness : option Q;
}.

(** The process-wide state.  [rng_tape] is the sequence of raw outputs of
    numpy's global generator and [rng_pos] the number of outputs consumed so
    far; [warnings] is the log of warnings issued so far, oldest first. *)
Record state : Type := mkState {
  heap : list Individual;
  rng_tape : nat -> N;
  rng_pos : nat;
  warnings : list string;
}.

Definition set_heap (h : list Individual) (s : state) : state :=
  {| heap := h; rng_tape := rng_tape s; rng_pos := rng_pos s;
     warnings := warnings s |}.

Definition set_rng_pos (n : nat) (s : state) : state :=
  {| heap := heap s; rng_tape := rng_tape s; rng_pos := n;
     warnings := warnings s |}.

Definition set_warnings (w : list string) (s : state) : state :=
  {| heap := heap s; rng_tape := rng_tape s; rng_pos := rng_pos s;
     warnings := w |}.

(** [warnings.warn(msg, category=UserWarning)]. *)
Definition warn (msg : string) : M state unit :=
  fun s => (Ok tt, set_warnings (warnings s ++ [msg]) s).

(** Reading the object a reference points to. *)
Definition load (r : ref) : M state Individual :=
  fun s =>
    match heap s !! r with
    | Some ind => (Ok ind, s)
    | None => (Raise DanglingReference, s)
    end.

(** Overwriting the object a reference points to. *)
Definition store (r : ref) (ind : Individual) : M state unit :=
  fun s => (Ok tt, set_heap (<[r := ind]> (heap s)) s).

(** Creating a new object: it gets an address no object has yet. *)
Definition alloc (ind : Individual) : M state ref :=
  fun s => (Ok (length (heap s)), set_heap (heap s ++ [ind]) s).

(** Modelled from the spec: [Individual.copy] is not part of the sources at
    hand.  Sections 3, 4.3 and 6: copying an individual creates a new
    individual with its own genes and hidden genes, equal to those of the
    original; the new individual has not been evaluated, its cached
    fitness is absent. *)
Definition Individual_copy (r : ref) : M state ref :=
  ind <- load r ;;
  alloc {| genes := genes ind;
           hidden_genes := hidden_genes ind;
           fitness := None |}.

(** [container[0]] on a population. *)
Definition Population_getitem (container : Population) (i : nat)
    : M state ref :=
  match container !! i with
  | Some r => ret r
  | None => raise (IndexError "list index out of range")
  end.

(** [len(ind.genes)]. *)
Definition len_genes (r : ref) : M state nat :=
  ind <- load r ;; ret (length (genes ind)).

(** [ind.genes[i]]. *)
Definition get_gene (r : ref) (i : nat) : M state G :=
  ind <- load r ;;
  match genes ind !! i with
  | Some g => ret g
  | None => raise (IndexError "index out of bounds")
  end.

(** [ind.genes[i] = g]. *)
Definition set_gene (r : ref) (i : nat) (g : G) : M state unit :=
  ind <- load r ;;
  if i <? length (genes ind)
  then store r {| genes := <[i := g]> (genes ind);
                  hidden_genes := hidden_genes ind;
                  fitness := fitness ind |}
  else raise (IndexError "index out of bounds").

(** [ind.hidden_genes[i]]. *)
Definition get_hidden_gene (r : ref) (i : nat) : M state float :=
  ind <- load r ;;
  match hidden_genes ind !! i with
  | Some h => ret h
  | None => raise (IndexError "index out of bounds")
  end.

(** [ind.hidden_genes[i] = h]. *)
Definition set_hidden_gene (r : ref) (i : nat) (h : float)
    : M state unit :=
  ind <- load r ;;
  if i <? length (hidden_genes ind)
  then store r {| genes := genes ind;
                  hidden_genes := <[i := h]> (hidden_genes ind);
                  fitness := fitness ind |}
  else raise (IndexError "index out of bounds").

(** [ind.genes[hits]]: numpy's indexing with an array of indices, the
    values at these indices in the order of [hits]. *)
Fixpoint get_genes_at (r : ref) (hits : list nat) : M state (list G) :=
  match hits with
  | [] => ret []
  | i :: rest =>
      g <- get_gene r i ;; gs <- get_genes_at r rest ;; ret (g :: gs)
  end.

(** The array after [a[hits] = vals]: the k-th value goes to index
    [hits[k]]. *)
Fixpoint assign_at {A : Type} (a : list A) (hits : list nat) (vals : list A)
    : list A :=
  match hits, vals with
  | i :: hits', v :: vals' => assign_at (<[i := v]> a) hits' vals'
  | _, _ => a
  end.

(** [ind.genes[hits] = vals]. *)
Definition set_genes_at (r : ref) (hits : list nat) (vals : list G)
    : M state unit :=
  ind <- load r ;;
  store r {| genes := assign_at (genes ind) hits vals;
             hidden_genes := hidden_genes ind;
             fitness := fitness ind |}.

(** ** numpy's global random generator

    The contracts of [numpy.random] that the operators rely on.  Each
    primitive consumes raw outputs of the generator and maps them into its
    range, so that every value of the range can be drawn. *)

(** The next raw output of the generator. *)
Definition next_raw : M state N :=
  fun s => (Ok (rng_tape s (rng_pos s)), set_rng_pos (S (rng_pos s)) s).

(** [n] successive draws. *)
Fixpoint draw_n {A : Type} (n : nat) (draw : M state A) : M state (list A) :=
  match n with
  | O => ret []
  | S k => x <- draw ;; xs <- draw_n k draw ;; ret (x :: xs)
  end.

(** A float of [[0.0, 1.0)]: numpy divides a 53-bit random integer by
    2^53. *)
Definition sample_of_raw (raw : N) : Q :=
  Z.of_N (raw mod 2 ^ 53) # (2 ^ 53).

(** [np.random.random_sample()]. *)
Definition random_sample : M state Q :=
  raw <- next_raw ;; ret (sample_of_raw raw).

(** [np.random.random_sample(n)]. *)
Definition random_sample_n (n : nat) : M state (list Q) :=
  draw_n n random_sample.

(** An integer of [[low, high)], for [low < high]. *)
Definition int_of_raw (low high : Z) (raw : N) : Z :=
  (low + Z.of_N raw mod (high - low))%Z.

(** The checks of [np.random.randint] on its bounds, in numpy's order:
    [low] and [high - 1] have to be values of numpy's default integer
    type, int64, and the range [[low, high)] must not be empty. *)
Definition randint_bounds (low high : Z) : result unit :=
  if (low <? - 2 ^ 63)%Z
  then Raise (ValueError "low is out of bounds for int64")
  else if (2 ^ 63 <? high)%Z
  then Raise (ValueError "high is out of bounds for int64")
  else if (high <=? low)%Z
  then Raise (ValueError "low >= high")
  else Ok tt.

(** [np.random.randint(low, high)]: an integer from [low] (inclusive) to
    [high] (exclusive); [ValueError] when the bounds are refused. *)
Definition randint (low high : Z) : M state Z :=
  match randint_bounds low high with
  | Raise e => raise e
  | Ok _ => raw <- next_raw ;; ret (int_of_raw low high raw)
  end.

(** [np.random.randint(low, high, size=n)]; for [n = 0] numpy returns the
    empty array before it looks at the bounds. *)
Definition randint_n (low high : Z) (n : nat) : M state (list Z) :=
  draw_n n (randint low high).

(** [np.random.choice(a)] for a list [a]: a uniformly chosen element;
    [ValueError] when [a] is empty. *)
Definition choice {A : Type} (a : list A) : M state A :=
  match a with
  | [] => raise (ValueError "a must be non-empty")
  | a0 :: _ =>
      raw <- next_raw ;; ret (nth (N.to_nat raw mod length a) a a0)
  end.

(** A standard normal deviate: a finite float.  Which float the generator
    returns for which raw output plays no role below; the decoding reads
    the raw output as the sign, the exponent and the fraction of a float
    and reaches every finite float. *)
Definition deviate_of_raw (raw : N) : float :=
  let sign := N.odd raw in
  let fraction := ((raw / 2) mod 2 ^ 52)%N in
  let exponent := ((raw / 2 / 2 ^ 52) mod 2047)%N in
  match exponent with
  | N0 =>
      match fraction with
      | N0 => S754_zero sign
      | Npos m => S754_finite sign m (-1074)
      end
  | Npos _ =>
      S754_finite sign (Z.to_pos (2 ^ 52 + Z.of_N fraction))
        (Z.of_N exponent - 1075)
  end.

(** The check of [np.random.normal] on [scale]: it is refused when it is
    not NaN and its sign bit is set, which is the case for [-0.0] too. *)
Definition scale_refused (scale : float) : bool := sign_set scale.

(** [np.random.normal(loc, scale, size=n)]: [loc + scale * g] for each
    standard normal deviate [g]; [ValueError] when [scale] is refused, also
    for [n = 0]. *)
Definition normal_n (loc scale : float) (n : nat) : M state (list float) :=
  if scale_refused scale
  then raise (ValueError "scale < 0")
  else
    draw_n n
      (raw <- next_raw ;; ret (fadd loc (fmul scale (deviate_of_raw raw)))).

(** [np.where(us <= prob)[0]]: the indices, in increasing order, of the
    samples that are at most [prob]. *)
Fixpoint where_from (i : nat) (bs : list bool) : list nat :=
  match bs with
  | [] => []
  | b :: rest =>
      if b then i :: where_from (S i) rest else where_from (S i) rest
  end.

Definition where_le (us : list Q) (prob : Q) : list nat :=
  where_from 0 (map (fun u => Qle_bool u prob) us).

(** [a / b] on Python floats: [ZeroDivisionError] when [b] is [0.0] or
    [-0.0]. *)
Definition truediv (a b : float) : M state float :=
  if is_zero b
  then raise (ZeroDivisionError "float division by zero")
  else ret (fdiv a b).

End Core.

Arguments Individual G : clear implicits.
Arguments state G : clear implicits.

(** The outcome of a constructor, which may raise. *)
Definition result_bind {A B : Type} (r : result A) (f : A -> result B)
    : result B :=
  match r with
  | Ok a => f a
  | Raise e => Raise e
  end.

(** ** operator.py: [Operator] *)

Module Operator.
Section Defs.

Context {G : Type}.

(** A hook as Python binds its arguments.  The hooks of [Operator] are
    declared [(self, container, /, *, pool=None)] and accept the keyword
    [pool]; a hook declared [(self, container)] does not. *)
Inductive method (C : Type) : Type :=
| MethodPool (f : C -> option GenePool -> M (state G) C)
| MethodPlain (f : C -> M (state G) C).
Arguments MethodPool {C} f.
Arguments MethodPlain {C} f.

(** The call [hook(container, pool=pool)]. *)
Definition call_with_pool {C : Type} (m : method C) (container : C)
    (pool : option GenePool) : M (state G) C :=
  match m with
  | MethodPool f => f container pool
  | MethodPlain _ =>
      raise (TypeError "got an unexpected keyword argument 'pool'")
  end.

(** The call [hook(container)]. *)
Definition call {C : Type} (m : method C) (container : C)
    : M (state G) C :=
  match m with
  | MethodPool f => f container None
  | MethodPlain f => f container
  end.

(** An instance of [Operator] or of one of its subclasses: the name of its
    class, its attribute [_iter_type], and the two hooks its class
    provides, which [process] reaches through [self]. *)
Record t : Type := {
  class_name : string;
  _iter_type : IterationType;
  population_hook : method Population;
  community_hook : method Community;
}.

(** The message of the warning of a hook that is not overridden, for the
    class name [type(self).__name__] and the kind of container (the two
    literals next to each other in the source join without a space). *)
Definition not_processed (self_class_name kind : string) : string :=
  "Operator " ++ self_class_name ++ " has been called on a"
  ++ kind ++ " without specifying an operation for this "
  ++ "type of container; it will not be processed".

(** [Operator._process_population]; of [self] it reads the class name
    only. *)
Definition _process_population (self_class_name : string)
    (container : Population) (pool : option GenePool)
    : M (state G) Population :=
  warn (not_processed self_class_name "Population") ;;;
  ret container.

(** [Operator._process_community]. *)
Definition _process_community (self_class_name : string)
    (container : Community) (pool : option GenePool)
    : M (state G) Community :=
  warn (not_processed self_class_name "Community") ;;;
  ret container.

(** [Operator.__init__]. *)
Definition __init__ (iter_type : option IterationType) : result t :=
  Ok {| class_name := "Operator";
        _iter_type := match iter_type with
                      | None => SingleIteration
                      | Some it => it
                      end;
        population_hook := MethodPool (_process_population "Operator");
        community_hook := MethodPool (_process_community "Operator") |}.

(** The getter of the property [iter_type]. *)
Definition iter_type (self : t) : IterationType := _iter_type self.

(** The setter of the property [iter_type]: the instance after the
    assignment, or the exception. *)
Definition iter_type_setter (self : t) (iter_type : pyobj) : result t :=
  match iter_type with
  | ObjIterationType it =>
      Ok {| class_name := class_name self;
            _iter_type := it;
            population_hook := population_hook self;
            community_hook := community_hook self |}
  | _ =>
      Raise (TypeError ("Expected IterationType, got " ++ type_repr iter_type))
  end.

(** [Operator.process]. *)
Definition process (self : t) (container : pyobj) (pool : option GenePool)
    : M (state G) pyobj :=
  match container with
  | ObjPopulation c =>
      population <-
        for_each (iterate_population (_iter_type self) c) Population_empty
          (fun population batch =>
             r <- call_with_pool (population_hook self) batch pool ;;
             ret (Population_integrate population r)) ;;
      ret (ObjPopulation population)
  | ObjCommunity c =>
      community <-
        for_each (iterate_community (_iter_type self) c) Community_empty
          (fun community population_batch =>
             r <- call_with_pool (community_hook self) population_batch pool ;;
             ret (Community_integrate community r)) ;;
      ret (ObjCommunity community)
  | _ =>
      raise (TypeError "Operator can only process populations or communities")
  end.

End Defs.

Arguments t G : clear implicits.
Arguments method G C : clear implicits.
Arguments MethodPool {G C} f.
Arguments MethodPlain {G C} f.

End Operator.

(** ** operator.py: [OperatorChain] *)

Module OperatorChain.
Section Defs.

Context {G : Type}.

(** A step of a chain: an operator, or a list of operators. *)
Inductive step : Type :=
| Single (operator : Operator.t G)
| Alternatives (operators : list (Operator.t G)).

Record t : Type := {
  _operators : list step;
}.

(** [OperatorChain.__init__]. *)
Definition __init__ (operators : list step) : result t :=
  Ok {| _operators := operators |}.

(** [operator[np.random.randint(len(operator))]]. *)
Definition pick (operators : list (Operator.t G))
    : M (state G) (Operator.t G) :=
  i <- randint 0 (Z.of_nat (length operators)) ;;
  match operators !! Z.to_nat i with
  | Some operator => ret operator
  | None => raise (IndexError "list index out of range")
  end.

(** [OperatorChain.process]. *)
Definition process (self : t) (container : pyobj) (pool : option GenePool)
    : M (state G) pyobj :=
  for_each (_operators self) container
    (fun container operator =>
       operator <- match operator with
                   | Alternatives operators => pick operators
                   | Single operator => ret operator
                   end ;;
       Operator.process operator container pool).

End Defs.

Arguments t G : clear implicits.
Arguments step G : clear implicits.

End OperatorChain.

(** ** mutation.py

    Each mutation class stores its parameters as they are given, inherits
    [__init__]'s default iteration type and [_process_community] from
    [Operator], and overrides [_process_population] with a hook declared
    [(self, container)]. *)

Module BitFlip.

Record t : Type := {
  _iter_type : IterationType;
  _prob : Q;
}.

(** [BitFlip.__init__(prob=0.1)]. *)
Definition __init__ (prob : option Q) : result t :=
  result_bind (Operator.__init__ (G := bool) None)
    (fun super =>
       Ok {| _iter_type := Operator._iter_type super;
             _prob := default (1 # 10)%Q prob |}).

(** [BitFlip._process_population]. *)
Definition _process_population (self : t) (container : Population)
    : M (state bool) Population :=
  first <- Population_getitem container 0 ;;
  ind <- Individual_copy first ;;
  n <- len_genes ind ;;
  for_each_ (seq 0 n)
    (fun i =>
       gene <- get_gene ind i ;;
       u <- random_sample ;;
       if Qle_bool u (_prob self)
       then set_gene ind i (negb gene)
       else ret tt) ;;;
  ret (Population_of ind).

(** The instance as [Operator.process] sees it. *)
Definition as_operator (self : t) : Operator.t bool := {|
  Operator.class_name := "BitFlip";
  Operator._iter_type := _iter_type self;
  Operator.population_hook :=
    Operator.MethodPlain (_process_population self);
  Operator.community_hook :=
    Operator.MethodPool (Operator._process_community "BitFlip");
|}.

End BitFlip.

Module UniformInt.

Record t : Type := {
  _iter_type : IterationType;
  _prob : Q;
  _lowest : Z;
  _highest : Z;
}.

(** [UniformInt.__init__(prob=0.1, lowest=-1, highest=1)]. *)
Definition __init__ (prob : option Q) (lowest highest : option Z)
    : result t :=
  result_bind (Operator.__init__ (G := Z) None)
    (fun super =>
       Ok {| _iter_type := Operator._iter_type super;
             _prob := default (1 # 10)%Q prob;
             _lowest := default (-1)%Z lowest;
             _highest := default 1%Z highest |}).

(** [UniformInt._process_population]. *)
Definition _process_population (self : t) (container : Population)
    : M (state Z) Population :=
  first <- Population_getitem container 0 ;;
  ind <- Individual_copy first ;;
  n <- len_genes ind ;;
  us <- random_sample_n n ;;
  let hits := where_le us (_prob self) in
  vals <- randint_n (_lowest self) (_highest self + 1)%Z (length hits) ;;
  set_genes_at ind hits vals ;;;
  ret (Population_of ind).

Definition as_operator (self : t) : Operator.t Z := {|
  Operator.class_name := "UniformInt";
  Operator._iter_type := _iter_type self;
  Operator.population_hook :=
    Operator.MethodPlain (_process_population self);
  Operator.community_hook :=
    Operator.MethodPool (Operator._process_community "UniformInt");
|}.

End UniformInt.

Module UniformFloat.

Record t : Type := {
  _iter_type : IterationType;
  _prob : Q;
  _lowest : Q;
  _highest : Q;
}.

(** [UniformFloat.__init__(prob=0.1, lowest=-1.0, highest=1.0)]. *)
Definition __init__ (prob lowest highest : option Q) : result t :=
  result_bind (Operator.__init__ (G := Q) None)
    (fun super =>
       Ok {| _iter_type := Operator._iter_type super;
             _prob := default (1 # 10)%Q prob;
             _lowest := default (-1)%Q lowest;
             _highest := default 1%Q highest |}).

(** [UniformFloat._process_population]. *)
Definition _process_population (self : t) (container : Population)
    : M (state Q) Population :=
  first <- Population_getitem container 0 ;;
  ind <- Individual_copy first ;;
  n <- len_genes ind ;;
  us <- random_sample_n n ;;
  let hits := where_le us (_prob self) in
  samples <- random_sample_n (length hits) ;;
  set_genes_at ind hits
    (map (fun u => (_highest self - _lowest self) * u + _lowest self)%Q
         samples) ;;;
  ret (Population_of ind).

Definition as_operator (self : t) : Operator.t Q := {|
  Operator.class_name := "UniformFloat";
  Operator._iter_type := _iter_type self;
  Operator.population_hook :=
    Operator.MethodPlain (_process_population self);
  Operator.community_hook :=
    Operator.MethodPool (Operator._process_community "UniformFloat");
|}.

End UniformFloat.

Module NormalDist.

Record t : Type := {
  _iter_type : IterationType;
  _prob : Q;
  _mu : float;
  _sigma : float;
  _alpha : option float;
}.

(** [NormalDist.__init__(prob=0.1, mu=0.0, sigma=1.0, alpha=None)]. *)
Definition __init__ (prob : option Q) (mu sigma alpha : option float)
    : result t :=
  result_bind (Operator.__init__ (G := float) None)
    (fun super =>
       Ok {| _iter_type := Operator._iter_type super;
             _prob := default (1 # 10)%Q prob;
             _mu := default (S754_zero false) mu;
             _sigma := default fone sigma;
             _alpha := alpha |}).

(** The lines [sigma = self._sigma] to the end of the [if]: the step size
    of this call; with [alpha] set, the stored step size is read and then
    multiplied by [alpha] or by its inverse. *)
Definition step_size (self : t) (ind : ref) : M (state float) float :=
  match _alpha self with
  | None => ret (_sigma self)
  | Some alpha =>
      sigma <- get_hidden_gene ind 0 ;;
      current <- get_hidden_gene ind 0 ;;
      inverse <- truediv fone alpha ;;
      factor <- choice [alpha; inverse] ;;
      set_hidden_gene ind 0 (fmul current factor) ;;;
      ret sigma
  end.

(** [NormalDist._process_population]. *)
Definition _process_population (self : t) (container : Population)
    : M (state float) Population :=
  first <- Population_getitem container 0 ;;
  ind <- Individual_copy first ;;
  n <- len_genes ind ;;
  us <- random_sample_n n ;;
  let hits := where_le us (_prob self) in
  sigma <- step_size self ind ;;
  current <- get_genes_at ind hits ;;
  noise <- normal_n (_mu self) sigma (length hits) ;;
  set_genes_at ind hits (zip_with fadd current noise) ;;;
  ret (Population_of ind).

Definition as_operator (self : t) : Operator.t float := {|
  Operator.class_name := "NormalDist";
  Operator._iter_type := _iter_type self;
  Operator.population_hook :=
    Operator.MethodPlain (_process_population self);
  Operator.community_hook :=
    Operator.MethodPool (Operator._process_community "NormalDist");
|}.

End NormalDist.

(** ** Example inputs *)

Module Examples.

(** [Operator()]. *)
Definition operator : Operator.t bool := {|
  Operator.class_name := "Operator";
  Operator._iter_type := SingleIteration;
  Operator.population_hook :=
    Operator.MethodPool (Operator._process_population "Operator");
  Operator.community_hook :=
    Operator.MethodPool (Operator._process_community "Operator");
|}.

(** [Operator(iter_type=it)] for the whole-container policy [it]. *)
Definition whole_operator : Operator.t bool := {|
  Operator.class_name := "Operator";
  Operator._iter_type := WholeIteration;
  Operator.population_hook :=
    Operator.MethodPool (Operator._process_population "Operator");
  Operator.community_hook :=
    Operator.MethodPool (Operator._process_community "Operator");
|}.

(** A generator whose raw outputs are all zero. *)
Definition zeros : nat -> N := fun _ => 0%N.

(** A state with the individuals [h], no output consumed, no warning. *)
Definition initial {G : Type} (h : list (Individual G)) (tape : nat -> N)
    : state G :=
  {| heap := h; rng_tape := tape; rng_pos := 0; warnings := [] |}.

Definition bits (gs : list bool) : Individual bool :=
  {| genes := gs; hidden_genes := []; fitness := None |}.

Definition reals (gs : list Q) (hs : list float) : Individual Q :=
  {| genes := gs; hidden_genes := hs; fitness := None |}.

Definition floats (gs hs : list float) : Individual float :=
  {| genes := gs; hidden_genes := hs; fitness := None |}.

(** [NormalDist(prob=1.0, mu=0.0, sigma=1.0, alpha=3.0)]. *)
Definition adaptive : NormalDist.t := {|
  NormalDist._iter_type := SingleIteration;
  NormalDist._prob := 1;
  NormalDist._mu := S754_zero false;
  NormalDist._sigma := fone;
  NormalDist._alpha := Some (float_of_Z 3);
|}.


Definition integers (gs : list Z) : Individual Z :=
  {| genes := gs; hidden_genes := []; fitness := None |}.

(** [BitFlip(prob=0.0)]. *)
Definition flip_never : BitFlip.t := {|
  BitFlip._iter_type := SingleIteration;
  BitFlip._prob := 0;
|}.

(** [BitFlip(prob=1.0)]. *)
Definition flip_always : BitFlip.t := {|
  BitFlip._iter_type := SingleIteration;
  BitFlip._prob := 1;
|}.

(** [UniformInt(prob=1.0, lowest=0, highest=3)]. *)
Definition uniform_int : UniformInt.t := {|
  UniformInt._iter_type := SingleIteration;
  UniformInt._prob := 1;
  UniformInt._lowest := 0;
  UniformInt._highest := 3;
|}.



End Examples.

(** ** Definitions that follow the specification's words *)

(** Section 4.1, the chain of single operators [s1, ..., sn] as nested
    calls: [sn.process(... s2.process(s1.process(container)) ...)].  The
    calls are evaluated from the innermost outwards and an exception of an
    inner call ends the evaluation. *)
Definition nested_calls {G : Type} (operators : list (Operator.t G))
    (container : pyobj) (pool : option GenePool) : M (state G) pyobj :=
  fold_left
    (fun inner operator =>
       c <- inner ;; Operator.process operator c pool)
    operators (ret container).

(** ** The Bernoulli trials of a call *)

(** The [i]-th float that a call draws with [random_sample] when it starts
    in state [s]. *)
Definition sample_at {G : Type} (s : state G) (i : nat) : Q :=
  sample_of_raw (rng_tape s (rng_pos s + i)).

(** The outcome of the Bernoulli trial for gene [i] in a call that starts in
    state [s]: all four mutation operators draw the float for gene [i] as
    their [i]-th float and select the gene when the float is at most
    [prob]. *)
Definition selected {G : Type} (s : state G) (prob : Q) (i : nat) : bool :=
  Qle_bool (sample_at s i) prob.

(** The indices that [np.where] returns in a call that starts in state [s]
    and draws [n] floats at once: the vectorised form of the trials. *)
Definition hits_of {G : Type} (s : state G) (prob : Q) (n : nat)
    : list nat :=
  where_le
    (map (fun j => sample_of_raw (rng_tape s (rng_pos s + j))) (seq 0 n))
    prob.

(** ** Copy on write *)

(** [y] has the shape of [x]: as many genes and as many hidden genes. *)
Definition same_shape {G : Type} (x y : Individual G) : Prop :=
  length (genes y) = length (genes x)
  /\ length (hidden_genes y) = length (hidden_genes x).

(** The heap [h] is [h0] and one more individual, of the shape of [x]. *)
Definition extends_with {G : Type} (h0 : list (Individual G))
    (x : Individual G) (h : list (Individual G)) : Prop :=
  exists y : Individual G, h = h0 ++ [y] /\ same_shape x y.

(** The computation [m] keeps the property [I] of the heap, whether it
    returns or raises. *)
Definition preserves {G A : Type} (I : list (Individual G) -> Prop)
    (m : M (state G) A) : Prop :=
  forall s : state G, I (heap s) -> I (heap (snd (m s))).

(** A hook copies on write: whether it returns or raises, every individual
    that exists before the call is afterwards as it was before; and when
    it returns for a batch of one individual, it returns a population of
    one individual that did not exist before the call and has the shape of
    the input individual. *)
Definition copies_on_write {G : Type}
    (hook : Population -> M (state G) Population) : Prop :=
  forall (container : Population) (s : state G),
    (forall (l : ref) (ind : Individual G),
       heap s !! l = Some ind ->
       heap (snd (hook container s)) !! l = Some ind)
    /\ (forall (first : ref) (x : Individual G) (pop' : Population)
               (s' : state G),
          container = [first] ->
          heap s !! first = Some x ->
          hook container s = (Ok pop', s') ->
          exists (new : ref) (y : Individual G),
            pop' = [new]
            /\ heap s !! new = None
            /\ heap s' !! new = Some y
            /\ same_shape x y).



(** ** Successive calls of [NormalDist] *)

(** The factor that [np.random.choice([alpha, 1/alpha])] returns for a raw
    output of the generator. *)
Definition factor_of_raw (alpha : float) (raw : N) : float :=
  nth (N.to_nat raw mod 2) [alpha; fdiv fone alpha] alpha.

(** [n] applications of the mutation step of [NormalDist], each to the
    population that the one before returned. *)
Fixpoint NormalDist_apply_n (self : NormalDist.t) (n : nat)
    (container : Population) : M (state float) Population :=
  match n with
  | O => ret container
  | S k =>
      container' <- NormalDist._process_population self container ;;
      NormalDist_apply_n self k container'
  end.

(** ** Statements of the specification that the code does not bear out *)

(** Section 4.1 and 7(c) as stated: on every population, [process] of the
    base operator returns the population unchanged and issues a warning. *)
Definition base_operator_always_warns : Prop :=
  forall (p : Population) (s : state bool),
    exists (w : list string) (s' : state bool),
      Operator.process Examples.operator (ObjPopulation p) None s
      = (Ok (ObjPopulation p), s')
      /\ warnings s' = warnings s ++ w
      /\ w <> [].

(** Section 4.3 and 7(a) as stated: a mutation operator cannot be
    constructed with a probability outside [[0, 1]]. *)
Definition prob_is_validated : Prop :=
  forall prob : Q,
    (prob < 0 \/ 1 < prob)%Q ->
    (exists e, BitFlip.__init__ (Some prob) = Raise e)
    /\ (exists e, UniformInt.__init__ (Some prob) None None = Raise e)
    /\ (exists e, UniformFloat.__init__ (Some prob) None None = Raise e)
    /\ (exists e, NormalDist.__init__ (Some prob) None None None = Raise e).

(** [x == y] on floats. *)
Definition feqb : float -> float -> bool := SFeqb.

(** Section 8 as stated: with [alpha] set, the stored step size after [n]
    calls is the product of [n] factors, each [alpha] or [1/alpha]. *)
Definition stored_step_size_is_product : Prop :=
  forall (self : NormalDist.t) (alpha : float) (n : nat)
         (s s' : state float) (first last : ref) (x y : Individual float),
    NormalDist._alpha self = Some alpha ->
    heap s !! first = Some x ->
    NormalDist_apply_n self n [first] s = (Ok [last], s') ->
    heap s' !! last = Some y ->
    exists (factors : list float) (size : float),
      length factors = n
      /\ Forall (fun f => feqb f alpha = true
                          \/ feqb f (fdiv fone alpha) = true) factors
      /\ hidden_genes y !! 0 = Some size
      /\ feqb size (fold_left fmul factors fone) = true.


(** ** operator.py: the representations *)

(** [sep.join(parts)]. *)
Fixpoint join (sep : string) (parts : list string) : string :=
  match parts with
  | [] => ""
  | p :: rest =>
      match rest with
      | [] => p
      | _ :: _ => p ++ sep ++ join sep rest
      end
  end.

(** [Operator.__repr__], which is also [str(operator)]: the name of the
    class of the instance. *)
Definition Operator_repr {G : Type} (self : Operator.t G) : string :=
  Operator.class_name self.

(** [OperatorChain.__repr__]. *)
Definition OperatorChain_repr {G : Type} (self : OperatorChain.t G)
    : string :=
  join " - "
    (map (fun x =>
            match x with
            | OperatorChain.Alternatives operators =>
                ("(" ++ join " | " (map Operator_repr operators) ++ ")")%string
            | OperatorChain.Single operator => Operator_repr operator
            end)
         (OperatorChain._operators self)).

(** ** Floats that differ in the sign of a zero at most *)

(** [a] is [b], or both are zeros. *)
Definition same_up_to_zero_sign (a b : float) : Prop :=
  a = b \/ (is_zero a = true /\ is_zero b = true).

(** ** Kinds of containers *)

(** [w] is a container of the kind of the container [v]. *)
Definition same_kind (v w : pyobj) : Prop :=
  match v, w with
  | ObjPopulation _, ObjPopulation _ => True
  | ObjCommunity _, ObjCommunity _ => True
  | _, _ => False
  end.

(** ** What a mutation step reads and returns *)

(** A hook looks at the first individual of its batch only and returns a
    population of exactly one individual. *)
Definition uses_first_individual_only {G : Type}
    (hook : Population -> M (state G) Population) : Prop :=
  (forall (first : ref) (rest : Population) (s : state G),
     hook (first :: rest) s = hook [first] s)
  /\ (forall (container pop' : Population) (s s' : state G),
        hook container s = (Ok pop', s') -> length pop' = 1).

(** A hook returns an exact copy: for a batch of one individual it
    returns a new individual with the genes and the hidden genes of the
    input individual. *)
Definition returns_exact_copy {G : Type}
    (hook : Population -> M (state G) Population) : Prop :=
  forall (first : ref) (x : Individual G) (s : state G),
    heap s !! first = Some x ->
    exists (s' : state G) (y : Individual G),
      hook [first] s = (Ok [length (heap s)], s')
      /\ heap s' !! length (heap s) = Some y
      /\ genes y = genes x
      /\ hidden_genes y = hidden_genes x.

(** ** The monad: unfolding lemmas *)

Section Monad.

Context {S A B : Type}.

Lemma bind_ok (m : M S A) (f : A -> M S B) (s s' : S) (a : A) :
  m s = (Ok a, s') -> bind m f s = f a s'.
Proof. intros H. unfold bind. now rewrite H. Qed.

Lemma bind_raise (m : M S A) (f : A -> M S B) (s s' : S) (e : exn) :
  m s = (Raise e, s') -> bind m f s = (Raise e, s').
Proof. intros H. unfold bind. now rewrite H. Qed.

Lemma bind_ret_l (a : A) (f : A -> M S B) (s : S) :
  bind (ret a) f s = f a s.
Proof. reflexivity. Qed.

Lemma bind_ok_inv (m : M S A) (f : A -> M S B) (s s2 : S) (b : B) :
  bind m f s = (Ok b, s2) ->
  exists a s1, m s = (Ok a, s1) /\ f a s1 = (Ok b, s2).
Proof.
  unfold bind. destruct (m s) as [[a | e] s1]; intros H.
  - now exists a, s1.
  - discriminate.
Qed.

End Monad.

Lemma bind_assoc {S A B C : Type} (m : M S A) (f : A -> M S B)
    (g : B -> M S C) (s : S) :
  bind (bind m f) g s = bind m (fun a => bind (f a) g) s.
Proof. unfold bind. destruct (m s) as [[a | e] s1]; reflexivity. Qed.

(** ** [Operator.process]: dispatch on the kind of container *)

(** C1.  For every input that is neither a population nor a community,
    [Operator.process] raises the [TypeError] for an invalid kind of
    container and returns no container; nothing else has happened by
    then. *)
Theorem process_rejects_other_objects {G : Type} (self : Operator.t G)
    (container : pyobj) (pool : option GenePool) (s : state G) :
  is_container container = false ->
  Operator.process self container pool s
  = (Raise (TypeError "Operator can only process populations or communities"),
     s).
Proof.
  intros Hkind. destruct container; simpl in Hkind; try discriminate;
    reflexivity.
Qed.

Lemma process_rejects_other_objects_witness :
  is_container (ObjInt 7) = false
  /\ Operator.process Examples.operator (ObjInt 7) None
       (Examples.initial [] Examples.zeros)
     = (Raise
          (TypeError "Operator can only process populations or communities"),
        Examples.initial [] Examples.zeros).
Proof.
  split; [reflexivity |].
  apply (process_rejects_other_objects Examples.operator (ObjInt 7) None
           (Examples.initial [] Examples.zeros)).
  reflexivity.
Defined.

(** ** The property [iter_type] *)

(** C10.  Assigning a value that is not an [IterationType] to [iter_type]
    raises a [TypeError] that names the type of the value; assigning an
    [IterationType] succeeds, the getter then returns it, and the rest of
    the operator is as before. *)
Theorem iter_type_setter_checks {G : Type} (self : Operator.t G)
    (v : pyobj) :
  is_iteration_type v = false ->
  Operator.iter_type_setter self v
  = Raise (TypeError ("Expected IterationType, got " ++ type_repr v))
  /\ forall it : IterationType,
       exists self' : Operator.t G,
         Operator.iter_type_setter self (ObjIterationType it) = Ok self'
         /\ Operator.iter_type self' = it
         /\ Operator.class_name self' = Operator.class_name self
         /\ Operator.population_hook self' = Operator.population_hook self
         /\ Operator.community_hook self' = Operator.community_hook self.
Proof.
  intros Hv. split.
  - destruct v; simpl in Hv; try discriminate; reflexivity.
  - intros it. eexists. split; [reflexivity |]. repeat split.
Qed.

Lemma iter_type_setter_checks_witness :
  is_iteration_type (ObjStr "single") = false
  /\ Operator.iter_type_setter Examples.operator (ObjStr "single")
     = Raise (TypeError "Expected IterationType, got <class 'str'>")
  /\ exists self' : Operator.t bool,
       Operator.iter_type_setter Examples.operator
         (ObjIterationType WholeIteration) = Ok self'
       /\ Operator.iter_type self' = WholeIteration.
Proof.
  destruct (iter_type_setter_checks Examples.operator (ObjStr "single")
              eq_refl) as [Hraise Hset].
  split; [reflexivity |]. split; [exact Hraise |].
  destruct (Hset WholeIteration) as [self' [H1 [H2 _]]].
  exists self'. split; assumption.
Defined.

(** ** [OperatorChain.process] *)

Lemma bind_ext {S A B : Type} (m : M S A) (f g : A -> M S B) (s : S) :
  (forall a s', f a s' = g a s') -> bind m f s = bind m g s.
Proof.
  intros H. unfold bind. destruct (m s) as [[a | e] s1]; [apply H | reflexivity].
Qed.

Lemma bind_ret_r {S A : Type} (m : M S A) (s : S) :
  bind m ret s = m s.
Proof. unfold bind, ret. destruct (m s) as [[a | e] s1]; reflexivity. Qed.

Section Chain.

Context {G : Type}.

Lemma nested_calls_loop (pool : option GenePool)
    (operators : list (Operator.t G)) :
  forall (inner : M (state G) pyobj) (s : state G),
    fold_left
      (fun inner operator =>
         c <- inner ;; Operator.process operator c pool)
      operators inner s
    = bind inner
        (fun c =>
           for_each (map OperatorChain.Single operators) c
             (fun container operator =>
                operator <- match operator with
                            | OperatorChain.Alternatives operators =>
                                OperatorChain.pick operators
                            | OperatorChain.Single operator => ret operator
                            end ;;
                Operator.process operator container pool))
        s.
Proof.
  induction operators as [| o rest IH]; intros inner s; simpl.
  - symmetry. apply bind_ret_r.
  - rewrite IH, bind_assoc. apply bind_ext. intros c s'. reflexivity.
Qed.

(** C3.  A chain built from the single operators [s1, ..., sn] processes a
    container as the nested calls
    [sn.process(... s2.process(s1.process(container)) ...)] do: the steps
    run in the order given, each on the output of the one before, and the
    output of the last one is returned (for no step: the container
    itself); the state they leave and an exception they raise are the
    same. *)
Theorem chain_of_single_operators (operators : list (Operator.t G))
    (self : OperatorChain.t G) (container : pyobj)
    (pool : option GenePool) (s : state G) :
  OperatorChain.__init__ (map OperatorChain.Single operators) = Ok self ->
  OperatorChain.process self container pool s
  = nested_calls operators container pool s.
Proof.
  intros Hinit. injection Hinit as <-.
  unfold nested_calls, OperatorChain.process. simpl.
  rewrite nested_calls_loop, bind_ret_l. reflexivity.
Qed.

End Chain.

Lemma chain_of_single_operators_witness :
  OperatorChain.__init__
    (map OperatorChain.Single [Examples.operator; Examples.operator])
  = Ok {| OperatorChain._operators :=
            [OperatorChain.Single Examples.operator;
             OperatorChain.Single Examples.operator] |}
  /\ OperatorChain.process
       {| OperatorChain._operators :=
            [OperatorChain.Single Examples.operator;
             OperatorChain.Single Examples.operator] |}
       (ObjPopulation [0; 1]) None (Examples.initial [] Examples.zeros)
     = nested_calls [Examples.operator; Examples.operator]
         (ObjPopulation [0; 1]) None (Examples.initial [] Examples.zeros).
Proof.
  split; [reflexivity |].
  apply (chain_of_single_operators [Examples.operator; Examples.operator]).
  reflexivity.
Defined.

(** ** The hooks of the base class *)

Section BaseHooks.

Context {G : Type}.

Lemma set_warnings_same (s : state G) : set_warnings (warnings s) s = s.
Proof. destruct s; reflexivity. Qed.

(** The loop of [process] over the batches of a population when the hook
    is the one of [Operator]: the batches are appended in order, with one
    warning each. *)
Lemma population_loop_base (name : string) (pool : option GenePool)
    (batches : list Population) :
  forall (acc : Population) (s : state G),
    for_each batches acc
      (fun population batch =>
         r <- Operator.call_with_pool
                (Operator.MethodPool (Operator._process_population name))
                batch pool ;;
         ret (Population_integrate population r)) s
    = (Ok (acc ++ concat batches),
       set_warnings
         (warnings s
          ++ repeat (Operator.not_processed name "Population")
               (length batches)) s).
Proof.
  induction batches as [| b rest IH]; intros acc s; simpl.
  - rewrite !app_nil_r, set_warnings_same. reflexivity.
  - unfold bind at 1. simpl. rewrite IH. simpl.
    unfold Population_integrate. rewrite <- !app_assoc. reflexivity.
Qed.

Lemma community_loop_base (name : string) (pool : option GenePool)
    (batches : list Community) :
  forall (acc : Community) (s : state G),
    for_each batches acc
      (fun community population_batch =>
         r <- Operator.call_with_pool
                (Operator.MethodPool (Operator._process_community name))
                population_batch pool ;;
         ret (Community_integrate community r)) s
    = (Ok (acc ++ concat batches),
       set_warnings
         (warnings s
          ++ repeat (Operator.not_processed name "Community")
               (length batches)) s).
Proof.
  induction batches as [| b rest IH]; intros acc s; simpl.
  - rewrite !app_nil_r, set_warnings_same. reflexivity.
  - unfold bind at 1. simpl. rewrite IH. simpl.
    unfold Community_integrate. rewrite <- !app_assoc. reflexivity.
Qed.

Lemma concat_singletons {A : Type} (l : list A) :
  concat (map (fun x => [x]) l) = l.
Proof. induction l as [| x l IH]; simpl; [| rewrite IH]; reflexivity. Qed.

(** C2, amended.  An operator that does not override the hook for the
    kind of container it is given, whatever its iteration type is, returns
    a container of that kind with the same elements in the same order and
    never raises, provided the batches of the iteration, taken in order,
    make up the container; it issues one warning for each batch.  Single
    iteration and whole iteration are such iterations, for every
    container: single iteration has one batch, and so one warning, for
    each individual of a population and for each population of a
    community, hence none for an empty container; whole iteration has one
    batch, and one warning, for every container. *)
Theorem base_operator_passes_through (self : Operator.t G)
    (pool : option GenePool) (s : state G) :
  (Operator.population_hook self
   = Operator.MethodPool
       (Operator._process_population (Operator.class_name self)) ->
   forall p : Population,
     concat (iterate_population (Operator._iter_type self) p) = p ->
     Operator.process self (ObjPopulation p) pool s
     = (Ok (ObjPopulation p),
        set_warnings
          (warnings s
           ++ repeat
                (Operator.not_processed (Operator.class_name self)
                   "Population")
                (length (iterate_population (Operator._iter_type self) p)))
          s))
  /\ (Operator.community_hook self
      = Operator.MethodPool
          (Operator._process_community (Operator.class_name self)) ->
      forall c : Community,
        concat (iterate_community (Operator._iter_type self) c) = c ->
        Operator.process self (ObjCommunity c) pool s
        = (Ok (ObjCommunity c),
           set_warnings
             (warnings s
              ++ repeat
                   (Operator.not_processed (Operator.class_name self)
                      "Community")
                   (length
                      (iterate_community (Operator._iter_type self) c)))
             s))
  /\ (forall (p : Population) (c : Community),
        concat (iterate_population SingleIteration p) = p
        /\ length (iterate_population SingleIteration p) = length p
        /\ concat (iterate_community SingleIteration c) = c
        /\ length (iterate_community SingleIteration c) = length c
        /\ concat (iterate_population WholeIteration p) = p
        /\ length (iterate_population WholeIteration p) = 1
        /\ concat (iterate_community WholeIteration c) = c
        /\ length (iterate_community WholeIteration c) = 1).
Proof.
  split; [| split].
  - intros Hhook p Hparts. unfold Operator.process. rewrite Hhook.
    erewrite bind_ok; [| apply population_loop_base].
    unfold Population_empty, ret. cbn [app]. now rewrite Hparts.
  - intros Hhook c Hparts. unfold Operator.process. rewrite Hhook.
    erewrite bind_ok; [| apply community_loop_base].
    unfold Community_empty, ret. cbn [app]. now rewrite Hparts.
  - intros p c. unfold SingleIteration, WholeIteration, Population_of.
    cbn [iterate_population iterate_community concat length].
    unfold Population, Community in *.
    rewrite !concat_singletons, !length_map, !app_nil_r. repeat split.
Qed.

End BaseHooks.

Lemma base_operator_passes_through_witness :
  Operator.process Examples.operator (ObjPopulation [0; 1]) None
    (Examples.initial [] Examples.zeros)
  = (Ok (ObjPopulation [0; 1]),
     set_warnings
       (repeat (Operator.not_processed "Operator" "Population") 2)
       (Examples.initial [] Examples.zeros))
  /\ Operator.process Examples.operator (ObjCommunity [[0]; [1]]) None
       (Examples.initial [] Examples.zeros)
     = (Ok (ObjCommunity [[0]; [1]]),
        set_warnings
          (repeat (Operator.not_processed "Operator" "Community") 2)
          (Examples.initial [] Examples.zeros))
  /\ Operator.process Examples.whole_operator (ObjPopulation [0; 1]) None
       (Examples.initial [] Examples.zeros)
     = (Ok (ObjPopulation [0; 1]),
        set_warnings
          (repeat (Operator.not_processed "Operator" "Population") 1)
          (Examples.initial [] Examples.zeros)).
Proof.
  destruct (base_operator_passes_through Examples.operator None
              (Examples.initial [] Examples.zeros)) as [Hp [Hc _]].
  destruct (base_operator_passes_through Examples.whole_operator None
              (Examples.initial [] Examples.zeros)) as [Hw _].
  split; [exact (Hp eq_refl [0; 1] eq_refl) |].
  split; [exact (Hc eq_refl [[0]; [1]] eq_refl) |].
  exact (Hw eq_refl [0; 1] eq_refl).
Defined.

(** C2, as stated, fails on the empty population: its iteration yields no
    batch, the hook is never called and no warning is issued. *)
Lemma base_operator_silent_on_empty : ~ base_operator_always_warns.
Proof.
  intros Hclaim.
  destruct (Hclaim [] (Examples.initial [] Examples.zeros))
    as [w [s' [Hrun [Hw Hne]]]].
  injection Hrun as <-. simpl in Hw. now subst w.
Qed.

(** ** Construction of the mutation operators *)

(** C6, amended.  The constructors of the four mutation operators validate
    nothing: for every probability, inside or outside [[0, 1]], and every
    other argument, construction succeeds and the operator stores the
    arguments as given, with single iteration as its iteration type. *)
Theorem mutation_init_stores_arguments (prob : Q) :
  (exists self,
     BitFlip.__init__ (Some prob) = Ok self
     /\ BitFlip._prob self = prob
     /\ BitFlip._iter_type self = SingleIteration)
  /\ (forall lowest highest : Z,
        exists self,
          UniformInt.__init__ (Some prob) (Some lowest) (Some highest)
          = Ok self
          /\ UniformInt._prob self = prob
          /\ UniformInt._lowest self = lowest
          /\ UniformInt._highest self = highest
          /\ UniformInt._iter_type self = SingleIteration)
  /\ (forall lowest highest : Q,
        exists self,
          UniformFloat.__init__ (Some prob) (Some lowest) (Some highest)
          = Ok self
          /\ UniformFloat._prob self = prob
          /\ UniformFloat._lowest self = lowest
          /\ UniformFloat._highest self = highest
          /\ UniformFloat._iter_type self = SingleIteration)
  /\ (forall (mu sigma : float) (alpha : option float),
        exists self,
          NormalDist.__init__ (Some prob) (Some mu) (Some sigma) alpha
          = Ok self
          /\ NormalDist._prob self = prob
          /\ NormalDist._mu self = mu
          /\ NormalDist._sigma self = sigma
          /\ NormalDist._alpha self = alpha
          /\ NormalDist._iter_type self = SingleIteration).
Proof.
  repeat split; intros; eexists; (split; [reflexivity |]); repeat split.
Qed.

(** C6, as stated, fails: [BitFlip(prob=2.0)] is constructed. *)
Lemma prob_two_is_accepted : ~ prob_is_validated.
Proof.
  intros Hclaim.
  destruct (Hclaim 2%Q) as [[e He] _]; [right; reflexivity |].
  discriminate He.
Qed.

(** ** The public [process] of the mutation operators *)

Section KeywordMismatch.

Context {G : Type}.

(** Once the iteration yields a batch, [process] calls the population hook
    with the keyword [pool]; a hook declared without it makes the call
    fail before the body of the hook runs. *)
Lemma process_plain_hook_raises (self : Operator.t G)
    (f : Population -> M (state G) Population) (p : Population)
    (pool : option GenePool) (s : state G) :
  Operator.population_hook self = Operator.MethodPlain f ->
  iterate_population (Operator._iter_type self) p <> [] ->
  Operator.process self (ObjPopulation p) pool s
  = (Raise (TypeError "got an unexpected keyword argument 'pool'"), s).
Proof.
  intros Hhook Hbatches. unfold Operator.process. rewrite Hhook.
  destruct (iterate_population (Operator._iter_type self) p) as [| b rest];
    [congruence | reflexivity].
Qed.

(** [process] of an operator whose population hook lacks the keyword and
    whose community hook is the inherited one never touches the heap or
    the generator, whatever it is given. *)
Lemma process_plain_hook_frame (self : Operator.t G)
    (f : Population -> M (state G) Population) (v : pyobj)
    (pool : option GenePool) (s : state G) :
  Operator.population_hook self = Operator.MethodPlain f ->
  Operator.community_hook self
  = Operator.MethodPool
      (Operator._process_community (Operator.class_name self)) ->
  heap (snd (Operator.process self v pool s)) = heap s
  /\ rng_pos (snd (Operator.process self v pool s)) = rng_pos s.
Proof.
  intros Hp Hc. destruct v; try (split; reflexivity).
  - unfold Operator.process. rewrite Hp.
    destruct (iterate_population (Operator._iter_type self) p);
      split; reflexivity.
  - unfold Operator.process. rewrite Hc.
    erewrite bind_ok; [| apply community_loop_base]. split; reflexivity.
Qed.

End KeywordMismatch.

Lemma single_batches_nonempty (p : Population) :
  p <> [] -> iterate_population SingleIteration p <> [].
Proof. destruct p; [congruence | discriminate]. Qed.

(** C4.  For a non-empty population, the public [process] of every
    mutation operator, as its constructor builds it, raises a [TypeError]
    for the unexpected keyword [pool] at the first batch, whatever the
    generator would yield: no individual is copied and no random number is
    drawn.  On every input [process] leaves heap and generator as they
    were, while the direct call of the hook is the mutation. *)
Theorem mutation_process_raises (p : Population) (v : pyobj)
    (pool : option GenePool) :
  p <> [] ->
  (forall prob self (s : state bool),
     BitFlip.__init__ prob = Ok self ->
     Operator.process (BitFlip.as_operator self) (ObjPopulation p) pool s
     = (Raise (TypeError "got an unexpected keyword argument 'pool'"), s)
     /\ heap (snd (Operator.process (BitFlip.as_operator self) v pool s))
        = heap s
     /\ rng_pos (snd (Operator.process (BitFlip.as_operator self) v pool s))
        = rng_pos s
     /\ Operator.call (Operator.population_hook (BitFlip.as_operator self)) p
        = BitFlip._process_population self p)
  /\ (forall prob lowest highest self (s : state Z),
        UniformInt.__init__ prob lowest highest = Ok self ->
        Operator.process (UniformInt.as_operator self) (ObjPopulation p)
          pool s
        = (Raise (TypeError "got an unexpected keyword argument 'pool'"), s)
        /\ heap (snd (Operator.process (UniformInt.as_operator self) v
                        pool s))
           = heap s
        /\ rng_pos (snd (Operator.process (UniformInt.as_operator self) v
                           pool s))
           = rng_pos s
        /\ Operator.call
             (Operator.population_hook (UniformInt.as_operator self)) p
           = UniformInt._process_population self p)
  /\ (forall prob lowest highest self (s : state Q),
        UniformFloat.__init__ prob lowest highest = Ok self ->
        Operator.process (UniformFloat.as_operator self) (ObjPopulation p)
          pool s
        = (Raise (TypeError "got an unexpected keyword argument 'pool'"), s)
        /\ heap (snd (Operator.process (UniformFloat.as_operator self) v
                        pool s))
           = heap s
        /\ rng_pos (snd (Operator.process (UniformFloat.as_operator self) v
                           pool s))
           = rng_pos s
        /\ Operator.call
             (Operator.population_hook (UniformFloat.as_operator self)) p
           = UniformFloat._process_population self p)
  /\ (forall prob mu sigma alpha self (s : state float),
        NormalDist.__init__ prob mu sigma alpha = Ok self ->
        Operator.process (NormalDist.as_operator self) (ObjPopulation p)
          pool s
        = (Raise (TypeError "got an unexpected keyword argument 'pool'"), s)
        /\ heap (snd (Operator.process (NormalDist.as_operator self) v
                        pool s))
           = heap s
        /\ rng_pos (snd (Operator.process (NormalDist.as_operator self) v
                           pool s))
           = rng_pos s
        /\ Operator.call
             (Operator.population_hook (NormalDist.as_operator self)) p
           = NormalDist._process_population self p).
Proof.
  intros Hp.
  repeat split; try reflexivity;
    match goal with
    | H : _ = Ok _ |- _ => injection H as <-
    end;
    try (eapply process_plain_hook_raises;
         [reflexivity | apply single_batches_nonempty, Hp]);
    try (eapply process_plain_hook_frame; reflexivity).
Qed.

Lemma mutation_process_raises_witness :
  [0] <> ([] : Population)
  /\ Operator.process (BitFlip.as_operator Examples.flip_always)
       (ObjPopulation [0]) None
       (Examples.initial [Examples.bits [true]] Examples.zeros)
     = (Raise (TypeError "got an unexpected keyword argument 'pool'"),
        Examples.initial [Examples.bits [true]] Examples.zeros)
  /\ Operator.process (NormalDist.as_operator Examples.adaptive)
       (ObjPopulation [0]) None
       (Examples.initial [Examples.floats [] [float_of_Z 2]] Examples.zeros)
     = (Raise (TypeError "got an unexpected keyword argument 'pool'"),
        Examples.initial [Examples.floats [] [float_of_Z 2]] Examples.zeros).
Proof.
  assert (Hne : [0] <> ([] : Population)) by discriminate.
  destruct (mutation_process_raises [0] ObjNone None Hne)
    as [Hb [_ [_ Hn]]].
  split; [exact Hne |]. split.
  - exact (proj1 (Hb (Some 1%Q) Examples.flip_always _ eq_refl)).
  - exact (proj1 (Hn (Some 1%Q) (Some (S754_zero false)) (Some fone)
                    (Some (float_of_Z 3)) Examples.adaptive _ eq_refl)).
Defined.

(** ** Evaluation of the primitives *)

Section Primitives.

Context {G : Type}.

Implicit Types (h : list (Individual G)) (x y : Individual G).
Implicit Types (t : nat -> N) (p : nat) (w : list string).

Lemma lookup_new h x : (h ++ [x]) !! length h = Some x.
Proof. rewrite lookup_app_r by lia. now rewrite Nat.sub_diag. Qed.

Lemma insert_new h x y : <[length h := y]> (h ++ [x]) = h ++ [y].
Proof.
  rewrite insert_app_r_alt by lia. now rewrite Nat.sub_diag.
Qed.

Lemma load_new h x t p w :
  load (length h) (mkState (h ++ [x]) t p w)
  = (Ok x, mkState (h ++ [x]) t p w).
Proof. unfold load. simpl. now rewrite lookup_new. Qed.

Lemma store_new h x y t p w :
  store (length h) y (mkState (h ++ [x]) t p w)
  = (Ok tt, mkState (h ++ [y]) t p w).
Proof. unfold store, set_heap. simpl. now rewrite insert_new. Qed.

Lemma copy_eval (s : state G) (first : ref) x :
  heap s !! first = Some x ->
  Individual_copy first s
  = (Ok (length (heap s)),
     mkState (heap s ++ [mkIndividual (genes x) (hidden_genes x) None]) (rng_tape s) (rng_pos s) (warnings s)).
Proof.
  intros H. unfold Individual_copy, load, bind. rewrite H. reflexivity.
Qed.

Lemma len_genes_new h x t p w :
  len_genes (length h) (mkState (h ++ [x]) t p w)
  = (Ok (length (genes x)), mkState (h ++ [x]) t p w).
Proof. unfold len_genes. erewrite bind_ok by apply load_new. reflexivity. Qed.

Lemma get_gene_new h x t p w (i : nat) (g : G) :
  genes x !! i = Some g ->
  get_gene (length h) i (mkState (h ++ [x]) t p w)
  = (Ok g, mkState (h ++ [x]) t p w).
Proof.
  intros H. unfold get_gene. erewrite bind_ok by apply load_new.
  now rewrite H.
Qed.

Lemma set_gene_new h x t p w (i : nat) (g : G) :
  i < length (genes x) ->
  set_gene (length h) i g (mkState (h ++ [x]) t p w)
  = (Ok tt,
     mkState (h ++ [mkIndividual (<[i := g]> (genes x)) (hidden_genes x)
                      (fitness x)]) t p w).
Proof.
  intros H. unfold set_gene. erewrite bind_ok by apply load_new.
  apply Nat.ltb_lt in H. rewrite H. apply store_new.
Qed.

Lemma get_hidden_gene_new h x t p w (i : nat) (v : float) :
  hidden_genes x !! i = Some v ->
  get_hidden_gene (length h) i (mkState (h ++ [x]) t p w)
  = (Ok v, mkState (h ++ [x]) t p w).
Proof.
  intros H. unfold get_hidden_gene. erewrite bind_ok by apply load_new.
  now rewrite H.
Qed.

Lemma set_hidden_gene_new h x t p w (i : nat) (v : float) :
  i < length (hidden_genes x) ->
  set_hidden_gene (length h) i v (mkState (h ++ [x]) t p w)
  = (Ok tt,
     mkState (h ++ [mkIndividual (genes x) (<[i := v]> (hidden_genes x))
                      (fitness x)]) t p w).
Proof.
  intros H. unfold set_hidden_gene. erewrite bind_ok by apply load_new.
  apply Nat.ltb_lt in H. rewrite H. apply store_new.
Qed.

Lemma set_genes_at_new h x t p w (hits : list nat) (vals : list G) :
  set_genes_at (length h) hits vals (mkState (h ++ [x]) t p w)
  = (Ok tt,
     mkState (h ++ [mkIndividual (assign_at (genes x) hits vals)
                      (hidden_genes x) (fitness x)]) t p w).
Proof.
  unfold set_genes_at. erewrite bind_ok by apply load_new. apply store_new.
Qed.

Lemma get_genes_at_new h x t p w (hits : list nat) (gs : list G) :
  Forall2 (fun i g => genes x !! i = Some g) hits gs ->
  get_genes_at (length h) hits (mkState (h ++ [x]) t p w)
  = (Ok gs, mkState (h ++ [x]) t p w).
Proof.
  induction 1 as [| i g hits gs Hi _ IH]; simpl; [reflexivity |].
  erewrite bind_ok by (apply get_gene_new, Hi).
  erewrite bind_ok by apply IH. reflexivity.
Qed.

(** [n] draws that each consume one raw output. *)
Lemma draw_n_eval {A : Type} (f : N -> A) (n : nat) h t w :
  forall p,
    draw_n n (raw <- next_raw ;; ret (f raw)) (mkState h t p w)
    = (Ok (map (fun i => f (t (p + i))) (seq 0 n)), mkState h t (p + n) w).
Proof.
  induction n as [| n IH]; intros p; simpl.
  - now rewrite Nat.add_0_r.
  - unfold bind at 1. simpl. unfold bind at 1.
    change (set_rng_pos (S p) (mkState h t p w)) with (mkState h t (S p) w).
    rewrite IH. simpl. rewrite Nat.add_0_r, <- seq_shift, map_map.
    unfold ret. rewrite <- Nat.add_succ_r. do 3 f_equal.
    apply map_ext. intros i. now rewrite Nat.add_succ_r.
Qed.

Lemma random_sample_n_eval (n : nat) h t p w :
  random_sample_n n (mkState h t p w)
  = (Ok (map (fun i => sample_of_raw (t (p + i))) (seq 0 n)),
     mkState h t (p + n) w).
Proof. apply (draw_n_eval sample_of_raw). Qed.

Lemma randint_n_eval (low high : Z) (n : nat) h t p w :
  n = 0 \/ randint_bounds low high = Ok tt ->
  randint_n low high n (mkState h t p w)
  = (Ok (map (fun i => int_of_raw low high (t (p + i))) (seq 0 n)),
     mkState h t (p + n) w).
Proof.
  intros [-> | H].
  - simpl. now rewrite Nat.add_0_r.
  - unfold randint_n, randint. rewrite H.
    apply (draw_n_eval (int_of_raw low high)).
Qed.

Lemma randint_n_raise (low high : Z) (n : nat) (e : exn) (s : state G) :
  n <> 0 ->
  randint_bounds low high = Raise e ->
  randint_n low high n s = (Raise e, s).
Proof.
  intros Hn He. destruct n as [| n]; [congruence |].
  unfold randint_n. simpl. apply bind_raise. unfold randint.
  now rewrite He.
Qed.

Lemma normal_n_eval (loc scale : float) (n : nat) h t p w :
  scale_refused scale = false ->
  normal_n loc scale n (mkState h t p w)
  = (Ok (map (fun i => fadd loc (fmul scale (deviate_of_raw (t (p + i)))))
           (seq 0 n)),
     mkState h t (p + n) w).
Proof.
  intros H. unfold normal_n. rewrite H.
  apply (draw_n_eval (fun raw => fadd loc (fmul scale (deviate_of_raw raw)))).
Qed.

Lemma normal_n_raise (loc scale : float) (n : nat) (s : state G) :
  scale_refused scale = true ->
  normal_n loc scale n s = (Raise (ValueError "scale < 0"), s).
Proof. intros H. unfold normal_n. now rewrite H. Qed.

End Primitives.

(** ** [BitFlip._process_population] *)

Section BitFlipEval.

Implicit Types (h : list (Individual bool)) (t : nat -> N).

Lemma insert_middle {A : Type} (done rest : list A) (a b : A) :
  <[length done := b]> (done ++ a :: rest) = done ++ b :: rest.
Proof.
  rewrite insert_app_r_alt by lia. now rewrite Nat.sub_diag.
Qed.

(** One round of the loop, at the index of [g]. *)
Lemma bitflip_step (prob : Q) h (hid : list float) (fit : option Q) t
    (w : list string) (done rest : list bool) (g : bool) (p : nat) :
  (gene <- get_gene (length h) (length done) ;;
   u <- random_sample ;;
   if Qle_bool u prob
   then set_gene (length h) (length done) (negb gene)
   else ret tt)
    (mkState (h ++ [mkIndividual (done ++ g :: rest) hid fit]) t p w)
  = (Ok tt,
     mkState
       (h ++ [mkIndividual
                (done
                 ++ (if Qle_bool (sample_of_raw (t p)) prob
                     then negb g else g) :: rest) hid fit])
       t (S p) w).
Proof.
  erewrite bind_ok by (apply get_gene_new; cbn [genes];
                        apply list_lookup_middle; reflexivity).
  unfold random_sample. rewrite bind_assoc.
  unfold bind at 1, next_raw at 1. cbn [rng_tape rng_pos].
  rewrite bind_ret_l. unfold set_rng_pos. cbn [heap rng_tape warnings].
  destruct (Qle_bool (sample_of_raw (t p)) prob).
  - rewrite set_gene_new; cbn [genes hidden_genes fitness].
    + now rewrite insert_middle.
    + rewrite length_app. simpl. lia.
  - reflexivity.
Qed.

(** The loop over the genes of the copy: the genes before the index of the
    loop are done, the remaining ones are visited in order, each with the
    next float of the generator. *)
Lemma bitflip_loop (prob : Q) h (hid : list float) (fit : option Q) t
    (w : list string) :
  forall (rest done : list bool) (p : nat),
    for_each_ (seq (length done) (length rest))
      (fun i =>
         gene <- get_gene (length h) i ;;
         u <- random_sample ;;
         if Qle_bool u prob
         then set_gene (length h) i (negb gene)
         else ret tt)
      (mkState (h ++ [mkIndividual (done ++ rest) hid fit]) t p w)
    = (Ok tt,
       mkState
         (h ++ [mkIndividual
                  (done
                   ++ imap (fun i g =>
                              if Qle_bool (sample_of_raw (t (p + i))) prob
                              then negb g else g) rest)
                  hid fit])
         t (p + length rest) w).
Proof.
  induction rest as [| g rest IH]; intros done p.
  - simpl. now rewrite Nat.add_0_r.
  - cbn [length seq for_each_].
    erewrite bind_ok by apply bitflip_step.
    set (g' := if Qle_bool (sample_of_raw (t p)) prob then negb g else g).
    specialize (IH (done ++ [g']) (S p)).
    rewrite length_app, Nat.add_1_r, <- app_assoc in IH. simpl in IH.
    rewrite IH. rewrite <- app_assoc. simpl.
    rewrite Nat.add_0_r, Nat.add_succ_r. do 7 f_equal.
    apply imap_ext. intros i b _. simpl. now rewrite Nat.add_succ_r.
Qed.

Lemma BitFlip_eval (self : BitFlip.t) (container : Population)
    (s : state bool) (first : ref) (x : Individual bool) :
  container !! 0 = Some first ->
  heap s !! first = Some x ->
  BitFlip._process_population self container s
  = (Ok [length (heap s)],
     mkState
       (heap s
        ++ [mkIndividual
              (imap (fun i g =>
                       if selected s (BitFlip._prob self) i
                       then negb g else g) (genes x))
              (hidden_genes x) None])
       (rng_tape s) (rng_pos s + length (genes x)) (warnings s)).
Proof.
  intros Hfirst Hx. unfold BitFlip._process_population, Population_getitem.
  rewrite Hfirst, bind_ret_l.
  erewrite bind_ok by (apply copy_eval, Hx).
  erewrite bind_ok by apply len_genes_new.
  cbn [genes hidden_genes fitness].
  destruct x as [gs hid fit]. cbn [genes hidden_genes fitness].
  erewrite bind_ok by apply (bitflip_loop _ _ _ _ _ _ gs []).
  reflexivity.
Qed.

End BitFlipEval.

(** ** Floats of the generator against a probability *)

Lemma two_pow_53 : Z.pos (2 ^ 53) = (2 ^ 53)%Z.
Proof. reflexivity. Qed.

Lemma raw_mod_bounds (raw : N) :
  (0 <= Z.of_N (raw mod 2 ^ 53) < 2 ^ 53)%Z.
Proof.
  split; [apply N2Z.is_nonneg |].
  change (2 ^ 53)%Z with (Z.of_N (2 ^ 53)). apply N2Z.inj_lt.
  now apply N.mod_lt.
Qed.

(** Every float of the generator is at most 1. *)
Lemma sample_le_one (raw : N) : Qle_bool (sample_of_raw raw) 1 = true.
Proof.
  unfold sample_of_raw, Qle_bool. cbn [Qnum Qden].
  apply Z.leb_le. rewrite two_pow_53.
  pose proof (raw_mod_bounds raw). lia.
Qed.

(** A float of the generator is at most 0 exactly when it is 0.0. *)
Lemma sample_le_zero (raw : N) :
  Qle_bool (sample_of_raw raw) 0 = (raw mod 2 ^ 53 =? 0)%N.
Proof.
  unfold sample_of_raw, Qle_bool. cbn [Qnum Qden].
  pose proof (raw_mod_bounds raw) as Hb.
  destruct (N.eqb_spec (raw mod 2 ^ 53) 0) as [E | E].
  - rewrite E. reflexivity.
  - apply Z.leb_gt. lia.
Qed.

(** ** Indexing with an array of indices *)

Section Indexing.

Context {A : Type}.

Lemma assign_at_length (hits : list nat) :
  forall (a vals : list A), length (assign_at a hits vals) = length a.
Proof.
  induction hits as [| i hits IH]; intros a [| v vals]; simpl;
    try reflexivity.
  now rewrite IH, length_insert.
Qed.

Lemma assign_at_other (hits : list nat) (i : nat) :
  i ∉ hits ->
  forall (a vals : list A), assign_at a hits vals !! i = a !! i.
Proof.
  induction hits as [| j hits IH]; intros Hi a [| v vals]; simpl;
    try reflexivity.
  apply not_elem_of_cons in Hi as [Hne Hi].
  rewrite IH by exact Hi. apply list_lookup_insert_ne. congruence.
Qed.

Lemma assign_at_hit (hits : list nat) (i : nat) :
  i ∈ hits ->
  forall (a vals : list A),
    length vals = length hits ->
    i < length a ->
    exists v, v ∈ vals /\ assign_at a hits vals !! i = Some v.
Proof.
  induction hits as [| j hits IH]; intros Hi a vals Hlen Hlt.
  - now apply elem_of_nil in Hi.
  - destruct vals as [| v vals]; [discriminate |]. simpl in *.
    destruct (decide (i ∈ hits)) as [Hin | Hnotin].
    + destruct (IH Hin (<[j := v]> a) vals) as [v' [Hv' Hlook]].
      * lia.
      * now rewrite length_insert.
      * exists v'. split; [apply elem_of_cons; now right | exact Hlook].
    + apply elem_of_cons in Hi as [-> | Hi]; [| contradiction].
      exists v. split; [apply elem_of_cons; now left |].
      rewrite assign_at_other by exact Hnotin.
      now apply list_lookup_insert_eq.
Qed.

Lemma where_from_spec (bs : list bool) :
  forall k i : nat,
    i ∈ where_from k bs <-> k <= i /\ bs !! (i - k) = Some true.
Proof.
  induction bs as [| b bs IH]; intros k i; simpl.
  - split; [intros H; now apply elem_of_nil in H | intros [_ H]; discriminate].
  - assert (Hrest : i ∈ where_from (S k) bs
                    <-> k < i /\ bs !! (i - S k) = Some true).
    { rewrite IH. reflexivity. }
    destruct (decide (i = k)) as [-> | Hne].
    + rewrite Nat.sub_diag. simpl. destruct b.
      * split; [intros _; split; [lia | reflexivity]
               | intros _; apply elem_of_cons; now left].
      * rewrite Hrest. split; [intros [H _]; lia | intros [_ H]; discriminate].
    + assert (Hshift : k <= i -> i - k = S (i - S k)) by lia.
      destruct b.
      * rewrite elem_of_cons, Hrest. split.
        -- intros [? | [Hlt Hb]]; [contradiction |].
           split; [lia |]. now rewrite Hshift by lia.
        -- intros [Hle Hb]. right. split; [lia |].
           now rewrite Hshift in Hb by lia.
      * rewrite Hrest. split.
        -- intros [Hlt Hb]. split; [lia |]. now rewrite Hshift by lia.
        -- intros [Hle Hb]. split; [lia |].
           now rewrite Hshift in Hb by lia.
Qed.

End Indexing.

(** The genes that [np.where] returns for the floats of a call are the
    genes that the Bernoulli trials select. *)
Lemma where_le_selected {G : Type} (s : state G) (prob : Q) (n i : nat) :
  i ∈ hits_of s prob n <-> i < n /\ selected s prob i = true.
Proof.
  unfold hits_of, where_le. rewrite where_from_spec, Nat.sub_0_r, map_map.
  rewrite list_lookup_fmap. unfold selected, sample_at. split.
  - intros [_ H]. destruct (seq 0 n !! i) as [j |] eqn:Hj; [| discriminate].
    apply lookup_seq in Hj as [-> Hlt]. simpl in H. split; [lia |].
    now injection H.
  - intros [Hlt H]. split; [lia |].
    rewrite (lookup_seq_lt 0 n i Hlt). simpl. now rewrite H.
Qed.

(** ** [UniformInt._process_population] *)

Section UniformIntEval.

Lemma randint_bounds_ok (low high : Z) :
  randint_bounds low high = Ok tt
  <-> (- 2 ^ 63 <= low /\ low < high /\ high <= 2 ^ 63)%Z.
Proof.
  unfold randint_bounds.
  destruct (Z.ltb_spec low (- 2 ^ 63)); [split; [discriminate | lia] |].
  destruct (Z.ltb_spec (2 ^ 63) high); [split; [discriminate | lia] |].
  destruct (Z.leb_spec high low); [split; [discriminate | lia] |].
  split; [lia | reflexivity].
Qed.

Lemma int_of_raw_range (low high : Z) (raw : N) :
  (low <= high)%Z ->
  (low <= int_of_raw low (high + 1) raw <= high)%Z.
Proof.
  intros H. unfold int_of_raw.
  pose proof (Z.mod_pos_bound (Z.of_N raw) (high + 1 - low)). lia.
Qed.

Variable self : UniformInt.t.
Variable container : Population.
Variable s : state Z.
Variable first : ref.
Variable x : Individual Z.
Hypothesis Hfirst : container !! 0 = Some first.
Hypothesis Hx : heap s !! first = Some x.

Lemma UniformInt_eval :
  hits_of s (UniformInt._prob self) (length (genes x)) = []
  \/ randint_bounds (UniformInt._lowest self) (UniformInt._highest self + 1)
     = Ok tt ->
  UniformInt._process_population self container s
  = (Ok [length (heap s)],
     mkState
       (heap s
        ++ [mkIndividual (assign_at (genes x)
                 (hits_of s (UniformInt._prob self) (length (genes x)))
                 (map (fun j =>
                       int_of_raw (UniformInt._lowest self)
                         (UniformInt._highest self + 1)
                         (rng_tape s (rng_pos s + length (genes x) + j)))
                    (seq 0
                       (length
                          (hits_of s (UniformInt._prob self)
                             (length (genes x))))))) (hidden_genes x)
              None])
       (rng_tape s) (rng_pos s + length (genes x) + length (hits_of s (UniformInt._prob self) (length (genes x))))
       (warnings s)).
Proof.
  intros Hok. unfold UniformInt._process_population, Population_getitem.
  rewrite Hfirst, bind_ret_l.
  erewrite bind_ok by (apply copy_eval, Hx).
  erewrite bind_ok by apply len_genes_new.
  cbn [genes hidden_genes fitness].
  erewrite bind_ok by apply random_sample_n_eval.
  cbv zeta. fold (hits_of s (UniformInt._prob self) (length (genes x))).
  erewrite bind_ok; cycle 1.
  { apply randint_n_eval. destruct Hok as [-> | Hb]; [now left | now right]. }
  erewrite bind_ok by apply set_genes_at_new.
  reflexivity.
Qed.

Lemma UniformInt_raise (e : exn) :
  hits_of s (UniformInt._prob self) (length (genes x)) <> [] ->
  randint_bounds (UniformInt._lowest self) (UniformInt._highest self + 1)
  = Raise e ->
  fst (UniformInt._process_population self container s) = Raise e.
Proof.
  intros Hne He. unfold UniformInt._process_population, Population_getitem.
  rewrite Hfirst, bind_ret_l.
  erewrite bind_ok by (apply copy_eval, Hx).
  erewrite bind_ok by apply len_genes_new.
  cbn [genes hidden_genes fitness].
  erewrite bind_ok by apply random_sample_n_eval.
  cbv zeta. fold (hits_of s (UniformInt._prob self) (length (genes x))).
  erewrite bind_raise; [reflexivity |].
  apply randint_n_raise; [| exact He].
  destruct (hits_of s (UniformInt._prob self) (length (genes x)));
    [congruence | discriminate].
Qed.

Lemma UniformInt_genes (i : nat) (g : Z) :
  hits_of s (UniformInt._prob self) (length (genes x)) = []
  \/ randint_bounds (UniformInt._lowest self) (UniformInt._highest self + 1)
     = Ok tt ->
  genes x !! i = Some g ->
  exists g' : Z,
    assign_at (genes x)
      (hits_of s (UniformInt._prob self) (length (genes x)))
      (map (fun j =>
                       int_of_raw (UniformInt._lowest self)
                         (UniformInt._highest self + 1)
                         (rng_tape s (rng_pos s + length (genes x) + j)))
                    (seq 0
                       (length
                          (hits_of s (UniformInt._prob self)
                             (length (genes x)))))) !! i = Some g'
    /\ if selected s (UniformInt._prob self) i
       then (UniformInt._lowest self <= g' <= UniformInt._highest self)%Z
       else g' = g.
Proof.
  intros Hok Hg. pose proof (lookup_lt_Some _ _ _ Hg) as Hlt.
  destruct (selected s (UniformInt._prob self) i) eqn:Hsel.
  - assert (Hin : i ∈ (hits_of s (UniformInt._prob self) (length (genes x)))) by (apply where_le_selected; auto).
    destruct (assign_at_hit _ i Hin (genes x) (map (fun j =>
                       int_of_raw (UniformInt._lowest self)
                         (UniformInt._highest self + 1)
                         (rng_tape s (rng_pos s + length (genes x) + j)))
                    (seq 0
                       (length
                          (hits_of s (UniformInt._prob self)
                             (length (genes x))))))) as [v [Hv Hlook]].
    + now rewrite length_map, length_seq.
    + exact Hlt.
    + exists v. split; [exact Hlook |].
      assert (Hle : (UniformInt._lowest self <= UniformInt._highest self)%Z).
      { destruct Hok as [E | Hb].
        - rewrite E in Hin. now apply elem_of_nil in Hin.
        - apply randint_bounds_ok in Hb. lia. }
      apply list_elem_of_fmap in Hv as [j [-> _]].
      now apply int_of_raw_range.
  - exists g. split; [| reflexivity].
    rewrite assign_at_other; [exact Hg |].
    intros Hin. apply where_le_selected in Hin as [_ Hin]. congruence.
Qed.

End UniformIntEval.

(** ** [BitFlip]: the probabilities 1.0 and 0.0 *)

(** With [prob = 1.0] every gene of the new individual is the negation of
    the gene of the input individual. *)
Lemma BitFlip_prob_one_flips_every_gene (self : BitFlip.t)
    (container : Population) (s : state bool) (first : ref)
    (x : Individual bool) :
  BitFlip._prob self = 1%Q ->
  container !! 0 = Some first ->
  heap s !! first = Some x ->
  exists (s' : state bool) (y : Individual bool),
    BitFlip._process_population self container s
    = (Ok [length (heap s)], s')
    /\ heap s' !! length (heap s) = Some y
    /\ genes y = map negb (genes x).
Proof.
  intros Hprob Hfirst Hx. do 2 eexists.
  split; [apply (BitFlip_eval self container s first x Hfirst Hx) |].
  cbn [heap]. split; [apply lookup_new |]. cbn [genes].
  apply list_eq. intros i.
  rewrite list_lookup_imap, list_lookup_fmap.
  unfold selected, sample_at. rewrite Hprob, sample_le_one. reflexivity.
Qed.

(** With [prob = 0.0] the genes of the new individual are those of the
    input individual, as long as no float that the call draws is 0.0. *)
Lemma BitFlip_prob_zero_keeps_genes (self : BitFlip.t)
    (container : Population) (s : state bool) (first : ref)
    (x : Individual bool) :
  BitFlip._prob self = 0%Q ->
  container !! 0 = Some first ->
  heap s !! first = Some x ->
  (forall i : nat, i < length (genes x) -> ~ (sample_at s i == 0)%Q) ->
  exists (s' : state bool) (y : Individual bool),
    BitFlip._process_population self container s
    = (Ok [length (heap s)], s')
    /\ heap s' !! length (heap s) = Some y
    /\ genes y = genes x.
Proof.
  intros Hprob Hfirst Hx Hdraws. do 2 eexists.
  split; [apply (BitFlip_eval self container s first x Hfirst Hx) |].
  cbn [heap]. split; [apply lookup_new |]. cbn [genes].
  apply list_eq. intros i. rewrite list_lookup_imap.
  destruct (genes x !! i) as [g |] eqn:Hg; [| reflexivity]. simpl.
  pose proof (lookup_lt_Some _ _ _ Hg) as Hlt.
  unfold selected. unfold sample_at in *.
  rewrite Hprob, sample_le_zero.
  destruct (N.eqb_spec (rng_tape s (rng_pos s + i) mod 2 ^ 53) 0)
    as [E | E]; [| reflexivity].
  exfalso. apply (Hdraws i Hlt). unfold sample_of_raw. now rewrite E.
Qed.

(** C7, at its failing input.  [BitFlip(prob=0.0)] applied to the
    individual with the one gene [True], when the generator returns the
    float 0.0: the comparison [0.0 <= 0.0] holds and the gene of the new
    individual is [False]. *)
Theorem BitFlip_prob_zero_flips_on_zero_draw :
  BitFlip.__init__ (Some 0%Q) = Ok Examples.flip_never
  /\ sample_at (Examples.initial [Examples.bits [true]] Examples.zeros) 0
     == 0
  /\ BitFlip._process_population Examples.flip_never [0]
       (Examples.initial [Examples.bits [true]] Examples.zeros)
     = (Ok [1],
        mkState [Examples.bits [true]; Examples.bits [false]]
          Examples.zeros 1 []).
Proof. repeat split. Qed.

(** ** [UniformFloat._process_population] *)


(** ** [NormalDist._process_population] *)

Section NormalDistEval.

Implicit Types (h : list (Individual float)) (t : nat -> N).

Lemma factor_of_raw_cases (alpha : float) (raw : N) :
  factor_of_raw alpha raw = alpha
  \/ factor_of_raw alpha raw = fdiv fone alpha.
Proof.
  unfold factor_of_raw.
  destruct (N.to_nat raw mod 2) as [| [| k]]; simpl; auto.
  destruct k; auto.
Qed.

(** The values at indices that are all in range. *)
Lemma values_at_in_range {A : Type} (d : A) (l : list A)
    (hits : list nat) :
  (forall i, i ∈ hits -> i < length l) ->
  Forall2 (fun i g => l !! i = Some g) hits
    (map (fun i => default d (l !! i)) hits).
Proof.
  induction hits as [| i hits IH]; intros Hin; simpl; constructor.
  - destruct (lookup_lt_is_Some_2 l i) as [g Hg].
    + apply Hin, elem_of_cons. now left.
    + now rewrite Hg.
  - apply IH. intros j Hj. apply Hin, elem_of_cons. now right.
Qed.

Variable self : NormalDist.t.

(** The part of the hook after the step size is fixed. *)

Lemma add_noise_eval h (x : Individual float) t (p : nat) (w : list string)
    (hits : list nat) (sigma : float) :
  (forall i, i ∈ hits -> i < length (genes x)) ->
  scale_refused sigma = false ->
  exists vals : list float,
    (current <- get_genes_at (length h) hits ;;
     noise <- normal_n (NormalDist._mu self) sigma (length hits) ;;
     set_genes_at (length h) hits (zip_with fadd current noise) ;;;
     ret (Population_of (length h))) (mkState (h ++ [x]) t p w)
    = (Ok [length h],
       mkState
         (h ++ [mkIndividual (assign_at (genes x) hits vals)
                  (hidden_genes x) (fitness x)])
         t (p + length hits) w).
Proof.
  intros Hin Hsigma. eexists.
  erewrite bind_ok
    by (apply get_genes_at_new, (values_at_in_range (S754_zero false)), Hin).
  erewrite bind_ok by (apply normal_n_eval, Hsigma).
  erewrite bind_ok by apply set_genes_at_new.
  reflexivity.
Qed.

Lemma add_noise_raise h (x : Individual float) t (p : nat) (w : list string)
    (hits : list nat) (sigma : float) :
  (forall i, i ∈ hits -> i < length (genes x)) ->
  scale_refused sigma = true ->
  exists e,
    fst ((current <- get_genes_at (length h) hits ;;
          noise <- normal_n (NormalDist._mu self) sigma (length hits) ;;
          set_genes_at (length h) hits (zip_with fadd current noise) ;;;
          ret (Population_of (length h))) (mkState (h ++ [x]) t p w))
    = Raise e.
Proof.
  intros Hin Hsigma. eexists.
  erewrite bind_ok
    by (apply get_genes_at_new, (values_at_in_range (S754_zero false)), Hin).
  erewrite bind_raise; [reflexivity |].
  apply normal_n_raise, Hsigma.
Qed.

Lemma step_size_fixed h (x : Individual float) t (p : nat) (w : list string) :
  NormalDist._alpha self = None ->
  NormalDist.step_size self (length h) (mkState (h ++ [x]) t p w)
  = (Ok (NormalDist._sigma self), mkState (h ++ [x]) t p w).
Proof. intros H. unfold NormalDist.step_size. now rewrite H. Qed.

Lemma step_size_adaptive h (x : Individual float) t (p : nat)
    (w : list string) (alpha h0 : float) (rest : list float) :
  NormalDist._alpha self = Some alpha ->
  hidden_genes x = h0 :: rest ->
  is_zero alpha = false ->
  NormalDist.step_size self (length h) (mkState (h ++ [x]) t p w)
  = (Ok h0,
     mkState
       (h ++ [mkIndividual (genes x)
                (fmul h0 (factor_of_raw alpha (t p)) :: rest) (fitness x)])
       t (S p) w).
Proof.
  intros Halpha Hhid Hnz. unfold NormalDist.step_size. rewrite Halpha.
  erewrite bind_ok by (apply get_hidden_gene_new; now rewrite Hhid).
  erewrite bind_ok by (apply get_hidden_gene_new; now rewrite Hhid).
  unfold truediv. rewrite Hnz, bind_ret_l.
  unfold choice. rewrite bind_assoc.
  unfold bind at 1, next_raw at 1. cbn [rng_tape rng_pos].
  rewrite bind_ret_l. unfold set_rng_pos. cbn [heap rng_tape warnings].
  erewrite bind_ok
    by (apply set_hidden_gene_new; rewrite Hhid; simpl; lia).
  rewrite Hhid. reflexivity.
Qed.

Lemma step_size_zero_alpha h (x : Individual float) t (p : nat)
    (w : list string) (alpha h0 : float) (rest : list float) :
  NormalDist._alpha self = Some alpha ->
  hidden_genes x = h0 :: rest ->
  is_zero alpha = true ->
  NormalDist.step_size self (length h) (mkState (h ++ [x]) t p w)
  = (Raise (ZeroDivisionError "float division by zero"),
     mkState (h ++ [x]) t p w).
Proof.
  intros Halpha Hhid Hz. unfold NormalDist.step_size. rewrite Halpha.
  erewrite bind_ok by (apply get_hidden_gene_new; now rewrite Hhid).
  erewrite bind_ok by (apply get_hidden_gene_new; now rewrite Hhid).
  unfold truediv. rewrite Hz. reflexivity.
Qed.

End NormalDistEval.

Section NormalDistCall.

Variable self : NormalDist.t.
Variable container : Population.
Variable s : state float.
Variable first : ref.
Variable x : Individual float.
Hypothesis Hfirst : container !! 0 = Some first.
Hypothesis Hx : heap s !! first = Some x.

Lemma hits_in_range (i : nat) :
  i ∈ hits_of s (NormalDist._prob self) (length (genes x)) ->
  i < length (genes x).
Proof. intros H. now apply where_le_selected in H. Qed.

(** Without [alpha] and with a step size that numpy accepts the call
    returns, and the hidden genes of the new individual are those of the
    input individual. *)
Lemma NormalDist_eval_fixed :
  NormalDist._alpha self = None ->
  scale_refused (NormalDist._sigma self) = false ->
  exists (vals : list float) (k : nat),
    NormalDist._process_population self container s
    = (Ok [length (heap s)],
       mkState
         (heap s
          ++ [mkIndividual
                (assign_at (genes x)
                   (hits_of s (NormalDist._prob self) (length (genes x)))
                   vals)
                (hidden_genes x) None])
         (rng_tape s) (rng_pos s + k) (warnings s)).
Proof.
  intros Halpha Hsigma.
  unfold NormalDist._process_population, Population_getitem.
  rewrite Hfirst, bind_ret_l.
  erewrite bind_ok by (apply copy_eval, Hx).
  erewrite bind_ok by apply len_genes_new.
  cbn [genes hidden_genes fitness].
  erewrite bind_ok by apply random_sample_n_eval.
  cbv zeta.
  erewrite bind_ok by (apply step_size_fixed, Halpha).
  destruct (add_noise_eval self (heap s)
              (mkIndividual (genes x) (hidden_genes x) None) (rng_tape s)
              (rng_pos s + length (genes x)) (warnings s) _
              (NormalDist._sigma self) hits_in_range Hsigma)
    as [vals Hrun].
  exists vals. eexists.
  etransitivity; [exact Hrun |]. now rewrite <- Nat.add_assoc.
Qed.

Lemma NormalDist_raise_fixed :
  NormalDist._alpha self = None ->
  scale_refused (NormalDist._sigma self) = true ->
  exists e, fst (NormalDist._process_population self container s) = Raise e.
Proof.
  intros Halpha Hsigma.
  unfold NormalDist._process_population, Population_getitem.
  rewrite Hfirst, bind_ret_l.
  erewrite bind_ok by (apply copy_eval, Hx).
  erewrite bind_ok by apply len_genes_new.
  cbn [genes hidden_genes fitness].
  erewrite bind_ok by apply random_sample_n_eval.
  cbv zeta.
  erewrite bind_ok by (apply step_size_fixed, Halpha).
  exact (add_noise_raise self (heap s)
           (mkIndividual (genes x) (hidden_genes x) None) (rng_tape s)
           (rng_pos s + length (genes x)) (warnings s) _
           (NormalDist._sigma self) hits_in_range Hsigma).
Qed.

(** With [alpha] set, not zero, and a stored step size that numpy
    accepts the call returns; the stored step size of the new individual
    is the one of the input individual times the factor drawn. *)
Lemma NormalDist_eval_adaptive (alpha h0 : float) (rest : list float) :
  NormalDist._alpha self = Some alpha ->
  hidden_genes x = h0 :: rest ->
  is_zero alpha = false ->
  scale_refused h0 = false ->
  exists (vals : list float) (k : nat),
    NormalDist._process_population self container s
    = (Ok [length (heap s)],
       mkState
         (heap s
          ++ [mkIndividual
                (assign_at (genes x)
                   (hits_of s (NormalDist._prob self) (length (genes x)))
                   vals)
                (fmul h0
                   (factor_of_raw alpha
                      (rng_tape s (rng_pos s + length (genes x))))
                 :: rest)
                None])
         (rng_tape s) (rng_pos s + k) (warnings s)).
Proof.
  intros Halpha Hhid Hnz Hh0.
  unfold NormalDist._process_population, Population_getitem.
  rewrite Hfirst, bind_ret_l.
  erewrite bind_ok by (apply copy_eval, Hx).
  erewrite bind_ok by apply len_genes_new.
  cbn [genes hidden_genes fitness].
  erewrite bind_ok by apply random_sample_n_eval.
  cbv zeta.
  erewrite bind_ok by (apply (step_size_adaptive self); eassumption).
  match goal with
  | |- context [mkState (heap s ++ [?y]) _ ?p _] =>
      destruct (add_noise_eval self (heap s) y (rng_tape s) p (warnings s)
                  _ h0 hits_in_range Hh0) as [vals Hrun]
  end.
  exists vals. eexists.
  etransitivity; [exact Hrun |]. cbn [genes hidden_genes fitness].
  now rewrite <- Nat.add_succ_r, <- Nat.add_assoc.
Qed.

Lemma NormalDist_raise_adaptive (alpha h0 : float) (rest : list float) :
  NormalDist._alpha self = Some alpha ->
  hidden_genes x = h0 :: rest ->
  is_zero alpha = true \/ scale_refused h0 = true ->
  exists e, fst (NormalDist._process_population self container s) = Raise e.
Proof.
  intros Halpha Hhid Hbad.
  unfold NormalDist._process_population, Population_getitem.
  rewrite Hfirst, bind_ret_l.
  erewrite bind_ok by (apply copy_eval, Hx).
  erewrite bind_ok by apply len_genes_new.
  cbn [genes hidden_genes fitness].
  erewrite bind_ok by apply random_sample_n_eval.
  cbv zeta.
  destruct (is_zero alpha) eqn:Hz.
  - eexists. erewrite bind_raise; [reflexivity |].
    eapply (step_size_zero_alpha self); eassumption.
  - destruct Hbad as [? | Hneg]; [discriminate |].
    erewrite bind_ok by (apply (step_size_adaptive self); eassumption).
    match goal with
    | |- context [mkState (heap s ++ [?y]) _ ?p _] =>
        exact (add_noise_raise self (heap s) y (rng_tape s) p (warnings s)
                 _ h0 hits_in_range Hneg)
    end.
Qed.

End NormalDistCall.

(** ** The calls that return *)

Lemma unselected_gene_kept {G : Type} (s : state G) (prob : Q)
    (gs vals : list G) (i : nat) :
  selected s prob i = false ->
  assign_at gs (hits_of s prob (length gs)) vals !! i = gs !! i.
Proof.
  intros Hsel. apply assign_at_other. intros Hin.
  apply where_le_selected in Hin as [_ Hin]. congruence.
Qed.

(** [UniformInt] returns only if no gene is selected or numpy accepts the
    bounds. *)
Lemma UniformInt_ok_inv (self : UniformInt.t) (container pop' : Population)
    (s s' : state Z) (first : ref) (x : Individual Z) :
  container !! 0 = Some first ->
  heap s !! first = Some x ->
  UniformInt._process_population self container s = (Ok pop', s') ->
  hits_of s (UniformInt._prob self) (length (genes x)) = []
  \/ randint_bounds (UniformInt._lowest self) (UniformInt._highest self + 1)
     = Ok tt.
Proof.
  intros Hfirst Hx Hrun.
  destruct (randint_bounds (UniformInt._lowest self)
              (UniformInt._highest self + 1)) as [[] | e] eqn:Hb;
    [now right |].
  destruct (hits_of s (UniformInt._prob self) (length (genes x)))
    as [| i0 rest] eqn:Hhits; [now left |].
  pose proof (UniformInt_raise self container s first x Hfirst Hx e)
    as Hraise.
  rewrite Hhits, Hrun in Hraise.
  discriminate Hraise; [discriminate | exact Hb].
Qed.







(** ** [UniformInt]: the range of the mutated genes *)

(** C8.  When [UniformInt._process_population] returns, it returns the one
    new individual, with as many genes as the input individual; every gene
    that its Bernoulli trial selects holds an integer of
    [[lowest, highest]], both bounds included, and every other gene holds
    the value it has in the input.  The call returns when
    [lowest <= highest] and both are int64 values. *)
Theorem UniformInt_mutates_within_range (self : UniformInt.t)
    (container : Population) (s : state Z) (first : ref)
    (x : Individual Z) :
  container !! 0 = Some first ->
  heap s !! first = Some x ->
  (forall (pop' : Population) (s' : state Z),
     UniformInt._process_population self container s = (Ok pop', s') ->
     exists y : Individual Z,
       pop' = [length (heap s)]
       /\ heap s' !! length (heap s) = Some y
       /\ length (genes y) = length (genes x)
       /\ forall (i : nat) (g : Z),
            genes x !! i = Some g ->
            exists g' : Z,
              genes y !! i = Some g'
              /\ if selected s (UniformInt._prob self) i
                 then (UniformInt._lowest self <= g'
                       <= UniformInt._highest self)%Z
                 else g' = g)
  /\ ((- 2 ^ 63 <= UniformInt._lowest self)%Z ->
      (UniformInt._lowest self <= UniformInt._highest self)%Z ->
      (UniformInt._highest self < 2 ^ 63)%Z ->
      exists s' : state Z,
        UniformInt._process_population self container s
        = (Ok [length (heap s)], s')).
Proof.
  intros Hfirst Hx. split.
  - intros pop' s' Hrun.
    pose proof (UniformInt_ok_inv self container pop' s s' first x Hfirst
                  Hx Hrun) as Hok.
    rewrite (UniformInt_eval self container s first x Hfirst Hx Hok)
      in Hrun.
    injection Hrun as <- <-. eexists. split; [reflexivity |].
    cbn [heap]. split; [apply lookup_new |].
    cbn [genes]. split; [apply assign_at_length |].
    intros i g Hg.
    exact (UniformInt_genes self s x i g Hok Hg).
  - intros Hlow Hle Hhigh. eexists.
    apply (UniformInt_eval self container s first x Hfirst Hx).
    right. apply randint_bounds_ok. lia.
Qed.

Lemma UniformInt_mutates_within_range_witness :
  [0] !! 0 = Some 0
  /\ (0 <= 3)%Z
  /\ exists s' : state Z,
       UniformInt._process_population Examples.uniform_int [0]
         (Examples.initial [Examples.integers [5; 7]%Z] Examples.zeros)
       = (Ok [1], s').
Proof.
  destruct (UniformInt_mutates_within_range Examples.uniform_int [0]
              (Examples.initial [Examples.integers [5; 7]%Z] Examples.zeros)
              0 (Examples.integers [5; 7]%Z) eq_refl eq_refl)
    as [_ Hreturns].
  split; [reflexivity |]. split; [discriminate |].
  apply Hreturns; [discriminate | discriminate | reflexivity].
Defined.

(** ** Floats: the sign of a product and of an inverse *)

Lemma iter_pos_invariant {A : Type} (P : A -> Prop) (f : A -> A) :
  (forall a, P a -> P (f a)) ->
  forall (n : positive) (a : A), P a -> P (SpecFloat.iter_pos f n a).
Proof.
  intros Hf. induction n as [n IH | n IH |]; intros a Ha; simpl; auto.
Qed.

Lemma shr_1_nonneg (mrs : shr_record) :
  (0 <= shr_m mrs)%Z -> (0 <= shr_m (shr_1 mrs))%Z.
Proof.
  destruct mrs as [m r s]. simpl.
  destruct m as [| [p | p |] | p]; simpl; lia.
Qed.

Lemma shr_fexp_nonneg (m e : Z) (l : location) :
  (0 <= m)%Z -> (0 <= shr_m (fst (shr_fexp prec emax m e l)))%Z.
Proof.
  intros Hm. unfold shr_fexp, shr.
  assert (H0 : (0 <= shr_m (shr_record_of_loc m l))%Z)
    by (destruct l as [| []]; exact Hm).
  destruct (fexp prec emax (Zdigits2 m + e) - e)%Z as [| p | p]; simpl;
    try exact H0.
  now apply (iter_pos_invariant (fun mrs => 0 <= shr_m mrs)%Z shr_1
               shr_1_nonneg).
Qed.

Lemma round_nearest_even_nonneg (m : Z) (l : location) :
  (0 <= m)%Z -> (0 <= round_nearest_even m l)%Z.
Proof.
  intros Hm. unfold round_nearest_even.
  destruct l as [| []]; try destruct (Z.even m); lia.
Qed.

(** Rounding keeps the sign and never yields NaN. *)
Lemma binary_round_aux_sign (sx : bool) (mx ex : Z) (lx : location) :
  (0 <= mx)%Z ->
  is_nan (binary_round_aux prec emax sx mx ex lx) = false
  /\ signbit (binary_round_aux prec emax sx mx ex lx) = sx.
Proof.
  intros Hm. unfold binary_round_aux.
  pose proof (shr_fexp_nonneg mx ex lx Hm) as H1.
  destruct (shr_fexp prec emax mx ex lx) as [mrs' e'].
  cbn [fst] in H1.
  pose proof (shr_fexp_nonneg
                (round_nearest_even (shr_m mrs') (loc_of_shr_record mrs'))
                e' loc_Exact
                (round_nearest_even_nonneg _ _ H1)) as H2.
  destruct (shr_fexp prec emax _ e' loc_Exact) as [mrs'' e''].
  cbn [fst] in H2.
  destruct (shr_m mrs'') as [| m | m]; [now split | | lia].
  destruct (e'' <=? emax - prec)%Z; now split.
Qed.

(** The product with a float that is finite and not zero. *)
Lemma fmul_sign_l (x y : float) :
  is_finite_nonzero x = true ->
  is_nan y = false ->
  is_nan (fmul x y) = false
  /\ signbit (fmul x y) = xorb (signbit x) (signbit y).
Proof.
  intros Hx Hy.
  destruct x as [| | | sx mx ex]; try discriminate Hx.
  destruct y as [sy | sy | | sy my ey]; try discriminate Hy;
    try (now split).
  apply binary_round_aux_sign. lia.
Qed.

Lemma fmul_sign_r (x y : float) :
  is_nan x = false ->
  is_finite_nonzero y = true ->
  is_nan (fmul x y) = false
  /\ signbit (fmul x y) = xorb (signbit x) (signbit y).
Proof.
  intros Hx Hy.
  destruct y as [| | | sy my ey]; try discriminate Hy.
  destruct x as [sx | sx | | sx mx ex]; try discriminate Hx;
    try (now split).
  apply binary_round_aux_sign. lia.
Qed.

(** The product of a zero and a finite float is a zero. *)
Lemma fmul_zero_l (x y : float) :
  is_zero x = true -> is_finite y = true ->
  fmul x y = S754_zero (xorb (signbit x) (signbit y)).
Proof.
  intros Hx Hy.
  destruct x; try discriminate Hx. destruct y; try discriminate Hy;
    reflexivity.
Qed.

Lemma fone_eq : fone = S754_finite false 4503599627370496 (-52).
Proof. reflexivity. Qed.

Lemma SFdiv_core_binary_nonneg (m1 m2 : positive) (e1 e2 : Z) :
  (0 <= fst (fst (SFdiv_core_binary prec emax (Zpos m1) e1 (Zpos m2) e2)))%Z.
Proof.
  unfold SFdiv_core_binary.
  set (s := (e1 - e2 - _)%Z).
  set (m' := match s with
             | Z0 => Zpos m1
             | Zpos _ => Z.shiftl (Zpos m1) s
             | Zneg _ => 0%Z
             end).
  assert (Hm' : (0 <= m')%Z).
  { subst m'. destruct s; try lia. apply Z.shiftl_nonneg. lia. }
  pose proof (Z.div_pos m' (Zpos m2) Hm' ltac:(lia)) as Hq.
  unfold Z.div in Hq.
  destruct (Z.div_eucl m' (Zpos m2)) as [q r]. exact Hq.
Qed.

(** The inverse has the sign of the float and is never NaN. *)
Lemma finverse_sign (x : float) :
  is_nan x = false ->
  is_nan (fdiv fone x) = false
  /\ signbit (fdiv fone x) = signbit x.
Proof.
  intros Hx. rewrite fone_eq.
  destruct x as [sx | sx | | sx mx ex]; try discriminate Hx;
    try (now split).
  unfold fdiv, SFdiv.
  pose proof (SFdiv_core_binary_nonneg 4503599627370496 mx (-52) ex) as Hq.
  destruct (SFdiv_core_binary prec emax 4503599627370496 (-52) (Zpos mx) ex)
    as [[mz ez] lz].
  cbn [fst] in Hq. now apply binary_round_aux_sign.
Qed.

(** A float that compares equal to a finite float that is not zero is
    that float. *)
Lemma feqb_finite_inv (x y : float) :
  is_finite_nonzero y = true -> feqb x y = true -> x = y.
Proof.
  destruct y as [| | | s m e]; try discriminate. intros _.
  unfold feqb, SFeqb, SFcompare.
  destruct x as [sx | sx | | sx mx ex]; try discriminate;
    try (destruct sx; discriminate); try (destruct s; discriminate).
  destruct sx, s; try discriminate;
    destruct (Z.compare ex e) eqn:He; try discriminate;
    destruct (Pos.compare_cont Eq mx m) eqn:Hm; try discriminate;
    intros _; apply Z.compare_eq in He; apply Pos.compare_eq in Hm;
    now subst.
Qed.

(** The rounding at work: [2.0 * (1 / 3.0)] is the float
    6004799503160661 * 2^-53, not the rational 2/3, and the square of
    2^-600 underflows to [0.0]. *)
Lemma fmul_rounds :
  fmul (float_of_Z 2) (fdiv fone (float_of_Z 3))
  = S754_finite false 6004799503160661 (-53)
  /\ fmul (SFldexp prec emax fone (-600)) (SFldexp prec emax fone (-600))
     = S754_zero false.
Proof. split; reflexivity. Qed.

Lemma sign_clear_accepted (x : float) :
  sign_clear x = true -> scale_refused x = false.
Proof. destruct x as [[] | [] | | [] ? ?]; now intros H. Qed.

Lemma sign_clear_spec (x : float) :
  sign_clear x = true <-> is_nan x = false /\ signbit x = false.
Proof.
  unfold sign_clear. destruct (is_nan x), (signbit x); simpl;
    split; try discriminate; try tauto; now intros [? ?].
Qed.

Lemma sign_set_spec (x : float) :
  sign_set x = true <-> is_nan x = false /\ signbit x = true.
Proof.
  unfold sign_set. destruct (is_nan x), (signbit x); simpl;
    split; try discriminate; try tauto; now intros [? ?].
Qed.

Lemma positive_finite_spec (x : float) :
  is_positive_finite x = true
  <-> is_finite_nonzero x = true /\ signbit x = false.
Proof.
  destruct x as [| | | [] ? ?]; simpl; split; try discriminate; try tauto;
    now intros [? ?].
Qed.

(** ** [NormalDist]: the hidden genes *)

Lemma NormalDist_step_adaptive (self : NormalDist.t) (s s' : state float)
    (container pop' : Population) (first : ref) (x : Individual float)
    (alpha h0 : float) (rest : list float) :
  container !! 0 = Some first ->
  heap s !! first = Some x ->
  NormalDist._alpha self = Some alpha ->
  hidden_genes x = h0 :: rest ->
  NormalDist._process_population self container s = (Ok pop', s') ->
  exists (f : float) (y : Individual float),
    (f = alpha \/ f = fdiv fone alpha)
    /\ pop' = [length (heap s)]
    /\ heap s' !! length (heap s) = Some y
    /\ hidden_genes y = fmul h0 f :: rest.
Proof.
  intros Hfirst Hx Halpha Hhid Hrun.
  destruct (is_zero alpha) eqn:Hz.
  { destruct (NormalDist_raise_adaptive self container s first x Hfirst Hx
                alpha h0 rest Halpha Hhid (or_introl Hz)) as [e He].
    rewrite Hrun in He. discriminate He. }
  destruct (scale_refused h0) eqn:Hpos.
  - destruct (NormalDist_raise_adaptive self container s first x Hfirst Hx
                alpha h0 rest Halpha Hhid (or_intror Hpos)) as [e He].
    rewrite Hrun in He. discriminate He.
  - destruct (NormalDist_eval_adaptive self container s first x Hfirst Hx
                alpha h0 rest Halpha Hhid Hz Hpos) as [vals [k Heval]].
    rewrite Heval in Hrun. injection Hrun as <- <-.
    do 2 eexists. split; [apply factor_of_raw_cases |].
    split; [reflexivity |]. cbn [heap].
    split; [apply lookup_new | reflexivity].
Qed.

Lemma NormalDist_apply_n_adaptive (self : NormalDist.t) (alpha : float) :
  NormalDist._alpha self = Some alpha ->
  forall (n : nat) (s s' : state float) (first : ref)
         (x : Individual float) (h0 : float) (rest : list float)
         (pop' : Population),
    heap s !! first = Some x ->
    hidden_genes x = h0 :: rest ->
    NormalDist_apply_n self n [first] s = (Ok pop', s') ->
    exists (factors : list float) (last : ref) (y : Individual float),
      length factors = n
      /\ Forall (fun f => f = alpha \/ f = fdiv fone alpha) factors
      /\ pop' = [last]
      /\ heap s' !! last = Some y
      /\ hidden_genes y = fold_left fmul factors h0 :: rest.
Proof.
  intros Halpha. induction n as [| n IH];
    intros s s' first x h0 rest pop' Hx Hhid Hrun.
  - injection Hrun as <- <-. exists [], first, x.
    repeat split; auto.
  - simpl in Hrun. apply bind_ok_inv in Hrun as [pop1 [s1 [Hcall Hrest]]].
    destruct (NormalDist_step_adaptive self s s1 [first] pop1 first x alpha
                h0 rest eq_refl Hx Halpha Hhid Hcall)
      as [f [y1 [Hf [-> [Hy1 Hhid1]]]]].
    destruct (IH s1 s' (length (heap s)) y1 (fmul h0 f) rest pop' Hy1 Hhid1
                Hrest)
      as [factors [last [y [Hlen [Hall [Hpop [Hy Hprod]]]]]]].
    exists (f :: factors), last, y. simpl.
    repeat split; auto.
Qed.

(** A property of the stored step size that every factor keeps, and that
    makes the step size acceptable as a scale, holds after any number of
    calls, which all return. *)
Lemma NormalDist_apply_n_invariant (P : float -> Prop)
    (self : NormalDist.t) (alpha : float) :
  NormalDist._alpha self = Some alpha ->
  is_zero alpha = false ->
  (forall h : float, P h -> scale_refused h = false) ->
  (forall (h : float) (raw : N), P h -> P (fmul h (factor_of_raw alpha raw))) ->
  forall (n : nat) (s : state float) (first : ref) (x : Individual float)
         (h0 : float) (rest : list float),
    heap s !! first = Some x ->
    hidden_genes x = h0 :: rest ->
    P h0 ->
    exists (last : ref) (y : Individual float) (h' : float)
           (s' : state float),
      NormalDist_apply_n self n [first] s = (Ok [last], s')
      /\ heap s' !! last = Some y
      /\ hidden_genes y = h' :: rest
      /\ P h'.
Proof.
  intros Halpha Hnz Hscale Hkeep.
  induction n as [| n IH]; intros s first x h0 rest Hx Hhid Hh0.
  - exists first, x, h0, s. repeat split; auto.
  - destruct (NormalDist_eval_adaptive self [first] s first x eq_refl Hx
                alpha h0 rest Halpha Hhid Hnz (Hscale h0 Hh0))
      as [vals [k Heval]].
    simpl. erewrite bind_ok by exact Heval.
    eapply IH.
    + cbn [heap]. apply lookup_new.
    + reflexivity.
    + apply Hkeep, Hh0.
Qed.

(** Both factors of a positive finite [alpha] whose inverse is finite and
    not zero are positive and finite. *)
Lemma factor_positive (alpha : float) (raw : N) :
  is_positive_finite alpha = true ->
  is_finite_nonzero (fdiv fone alpha) = true ->
  is_positive_finite (factor_of_raw alpha raw) = true.
Proof.
  intros Ha Hinv.
  destruct (factor_of_raw_cases alpha raw) as [-> | ->]; [exact Ha |].
  apply positive_finite_spec. split; [exact Hinv |].
  apply positive_finite_spec in Ha as [Hfin Hsign].
  destruct (finverse_sign alpha) as [_ Hs].
  - now destruct alpha.
  - now rewrite Hs.
Qed.

(** A step size with a clear sign bit keeps it when it is multiplied by a
    positive finite float. *)
Lemma sign_clear_fmul (h f : float) :
  sign_clear h = true ->
  is_positive_finite f = true ->
  sign_clear (fmul h f) = true.
Proof.
  intros Hh Hf. apply sign_clear_spec in Hh as [Hnan Hsign].
  apply positive_finite_spec in Hf as [Hfin Hfs].
  destruct (fmul_sign_r h f Hnan Hfin) as [Hn Hs].
  apply sign_clear_spec. split; [exact Hn |].
  now rewrite Hs, Hsign, Hfs.
Qed.

Lemma positive_finite_not_zero (x : float) :
  is_positive_finite x = true -> is_zero x = false.
Proof. now destruct x as [| | | [] ? ?]. Qed.

Lemma NormalDist_apply_n_returns (self : NormalDist.t) (alpha : float) :
  NormalDist._alpha self = Some alpha ->
  is_positive_finite alpha = true ->
  is_finite_nonzero (fdiv fone alpha) = true ->
  forall (n : nat) (s : state float) (first : ref) (x : Individual float)
         (h0 : float) (rest : list float),
    heap s !! first = Some x ->
    hidden_genes x = h0 :: rest ->
    sign_clear h0 = true ->
    exists (pop' : Population) (s' : state float),
      NormalDist_apply_n self n [first] s = (Ok pop', s').
Proof.
  intros Halpha Hpos Hinv n s first x h0 rest Hx Hhid Hh0.
  destruct (NormalDist_apply_n_invariant (fun h => sign_clear h = true)
              self alpha Halpha (positive_finite_not_zero alpha Hpos)
              sign_clear_accepted
              (fun h raw Hh =>
                 sign_clear_fmul h _ Hh
                   (factor_positive alpha raw Hpos Hinv))
              n s first x h0 rest Hx Hhid Hh0)
    as [last [y [h' [s' [Hrun _]]]]].
  now exists [last], s'.
Qed.

(** C9, amended.  Without [alpha], a call that returns leaves the hidden
    genes as they are: those of the new individual equal those of the input
    individual, which is itself unchanged; the call returns when [sigma] is
    not NaN and has a clear sign bit.  With [alpha] set, for an individual
    that has a hidden gene 0, [n] successive applications that return leave
    as stored step size the initial stored step size multiplied in float
    arithmetic, one after the other, by [n] factors that are each [alpha]
    or the float [1/alpha], the other hidden genes being unchanged; they
    all return when [alpha] is positive and finite, its inverse is finite
    and not zero, and the initial step size is not NaN and has a clear sign
    bit. *)
Theorem NormalDist_hidden_genes (self : NormalDist.t) (s : state float)
    (first : ref) (x : Individual float) :
  heap s !! first = Some x ->
  (NormalDist._alpha self = None ->
   (forall (pop' : Population) (s' : state float),
      NormalDist._process_population self [first] s = (Ok pop', s') ->
      exists y : Individual float,
        pop' = [length (heap s)]
        /\ heap s' !! length (heap s) = Some y
        /\ hidden_genes y = hidden_genes x
        /\ heap s' !! first = Some x)
   /\ (sign_clear (NormalDist._sigma self) = true ->
       exists s' : state float,
         NormalDist._process_population self [first] s
         = (Ok [length (heap s)], s')))
  /\ (forall (alpha h0 : float) (rest : list float) (n : nat),
        NormalDist._alpha self = Some alpha ->
        hidden_genes x = h0 :: rest ->
        (forall (pop' : Population) (s' : state float),
           NormalDist_apply_n self n [first] s = (Ok pop', s') ->
           exists (factors : list float) (last : ref)
                  (y : Individual float),
             length factors = n
             /\ Forall (fun f => f = alpha \/ f = fdiv fone alpha) factors
             /\ pop' = [last]
             /\ heap s' !! last = Some y
             /\ hidden_genes y = fold_left fmul factors h0 :: rest)
        /\ (is_positive_finite alpha = true ->
            is_finite_nonzero (fdiv fone alpha) = true ->
            sign_clear h0 = true ->
            exists (pop' : Population) (s' : state float),
              NormalDist_apply_n self n [first] s = (Ok pop', s'))).
Proof.
  intros Hx. split.
  - intros Halpha. split.
    + intros pop' s' Hrun.
      destruct (scale_refused (NormalDist._sigma self)) eqn:Hsigma.
      * destruct (NormalDist_raise_fixed self [first] s first x eq_refl Hx
                    Halpha Hsigma) as [e He].
        rewrite Hrun in He. discriminate He.
      * destruct (NormalDist_eval_fixed self [first] s first x eq_refl Hx
                    Halpha Hsigma) as [vals [k Heval]].
        rewrite Heval in Hrun. injection Hrun as <- <-.
        eexists. split; [reflexivity |]. cbn [heap].
        split; [apply lookup_new |]. split; [reflexivity |].
        now apply lookup_app_l_Some.
    + intros Hsigma.
      destruct (NormalDist_eval_fixed self [first] s first x eq_refl Hx
                  Halpha (sign_clear_accepted _ Hsigma))
        as [vals [k Heval]].
      eexists. exact Heval.
  - intros alpha h0 rest n Halpha Hhid. split.
    + intros pop' s' Hrun.
      exact (NormalDist_apply_n_adaptive self alpha Halpha n s s' first x
               h0 rest pop' Hx Hhid Hrun).
    + intros Hpos Hinv Hh0.
      exact (NormalDist_apply_n_returns self alpha Halpha Hpos Hinv n s
               first x h0 rest Hx Hhid Hh0).
Qed.

(** C9, as stated, fails: one call with [alpha = 3.0] on an individual
    whose stored step size is 2.0 stores 6.0, which is neither 3.0 nor
    1/3. *)
Lemma stored_step_size_keeps_initial : ~ stored_step_size_is_product.
Proof.
  intros Hclaim.
  destruct (Hclaim Examples.adaptive (float_of_Z 3) 1
              (Examples.initial [Examples.floats [] [float_of_Z 2]]
                 Examples.zeros)
              (mkState
                 [Examples.floats [] [float_of_Z 2];
                  Examples.floats [] [float_of_Z 6]]
                 Examples.zeros 1 [])
              0 1 (Examples.floats [] [float_of_Z 2])
              (Examples.floats [] [float_of_Z 6])
              eq_refl eq_refl eq_refl eq_refl)
    as [factors [size [Hlen [Hall [Hsize Hprod]]]]].
  injection Hsize as <-.
  destruct factors as [| f [| f' factors]]; try discriminate Hlen.
  apply Forall_cons in Hall as [Hf _]. cbn [fold_left] in Hprod.
  destruct Hf as [Hf | Hf].
  - apply (feqb_finite_inv f (float_of_Z 3) eq_refl) in Hf. subst f.
    vm_compute in Hprod. discriminate Hprod.
  - apply (feqb_finite_inv f (fdiv fone (float_of_Z 3)) eq_refl) in Hf.
    subst f. vm_compute in Hprod. discriminate Hprod.
Qed.

Lemma NormalDist_hidden_genes_witness :
  exists (factors : list float) (last : ref) (y : Individual float),
    length factors = 2
    /\ Forall (fun f => f = float_of_Z 3 \/ f = fdiv fone (float_of_Z 3))
         factors
    /\ heap (snd (NormalDist_apply_n Examples.adaptive 2 [0]
                    (Examples.initial
                       [Examples.floats [float_of_Z 5] [float_of_Z 2]]
                       Examples.zeros))) !! last
       = Some y
    /\ hidden_genes y = [fold_left fmul factors (float_of_Z 2)].
Proof.
  destruct (NormalDist_hidden_genes Examples.adaptive
              (Examples.initial
                 [Examples.floats [float_of_Z 5] [float_of_Z 2]]
                 Examples.zeros)
              0 (Examples.floats [float_of_Z 5] [float_of_Z 2]) eq_refl)
    as [_ Hadaptive].
  destruct (Hadaptive (float_of_Z 3) (float_of_Z 2) [] 2 eq_refl eq_refl)
    as [Hprod Hreturns].
  destruct Hreturns as [pop' [s' Hrun]];
    [reflexivity | reflexivity | reflexivity |].
  destruct (Hprod pop' s' Hrun)
    as [factors [last [y [Hlen [Hall [_ [Hy Hhid]]]]]]].
  exists factors, last, y.
  split; [exact Hlen |]. split; [exact Hall |].
  split; [| exact Hhid].
  etransitivity; [| exact Hy].
  exact (f_equal (fun r => heap (snd r) !! last) Hrun).
Defined.

(** ** Copy on write *)

Section Frame.

Context {G : Type}.

Implicit Types (I : list (Individual G) -> Prop).

Lemma preserves_ret {A : Type} I (a : A) : preserves I (ret a).
Proof. intros s H. exact H. Qed.

Lemma preserves_raise {A : Type} I (e : exn) :
  preserves I (raise (A := A) e).
Proof. intros s H. exact H. Qed.

Lemma preserves_bind {A B : Type} I (m : M (state G) A)
    (f : A -> M (state G) B) :
  preserves I m -> (forall a, preserves I (f a)) -> preserves I (bind m f).
Proof.
  intros Hm Hf s H. specialize (Hm s H). unfold bind.
  destruct (m s) as [[a | e] s1]; simpl in Hm.
  - now apply Hf.
  - exact Hm.
Qed.

Lemma preserves_load I (r : ref) : preserves I (load r).
Proof. intros s H. unfold load. now destruct (heap s !! r). Qed.

Lemma preserves_next_raw I : preserves I next_raw.
Proof. intros s H. exact H. Qed.


Lemma preserves_draw_n {A : Type} I (n : nat) (draw : M (state G) A) :
  preserves I draw -> preserves I (draw_n n draw).
Proof.
  intros Hdraw. induction n as [| n IH]; simpl.
  - apply preserves_ret.
  - apply preserves_bind; [exact Hdraw | intros a].
    apply preserves_bind; [exact IH | intros xs; apply preserves_ret].
Qed.

End Frame.

Ltac preserves_step :=
  first
    [ apply preserves_ret
    | apply preserves_raise
    | apply preserves_load
    | apply preserves_next_raw
    | apply preserves_draw_n
    | apply preserves_bind; [| intros ?]
    | match goal with
      | |- preserves _ (if ?b then _ else _) => destruct b
      | |- preserves _ (match ?o with _ => _ end) => destruct o
      end ].

Section FrameOperations.

Context {G : Type}.

Implicit Types (I : list (Individual G) -> Prop).

Lemma preserves_len_genes I (r : ref) : preserves I (len_genes r).
Proof. unfold len_genes. repeat preserves_step. Qed.

Lemma preserves_get_gene I (r : ref) (i : nat) :
  preserves I (get_gene r i).
Proof. unfold get_gene. repeat preserves_step. Qed.

Lemma preserves_get_hidden_gene I (r : ref) (i : nat) :
  preserves I (get_hidden_gene r i).
Proof. unfold get_hidden_gene. repeat preserves_step. Qed.

Lemma preserves_get_genes_at I (r : ref) (hits : list nat) :
  preserves I (get_genes_at r hits).
Proof.
  induction hits as [| i hits IH]; simpl.
  - apply preserves_ret.
  - apply preserves_bind; [apply preserves_get_gene | intros g].
    apply preserves_bind; [exact IH | intros gs; apply preserves_ret].
Qed.

Lemma preserves_random_sample I : preserves I random_sample.
Proof. unfold random_sample. repeat preserves_step. Qed.

Lemma preserves_random_sample_n I (n : nat) :
  preserves I (random_sample_n n).
Proof. apply preserves_draw_n, preserves_random_sample. Qed.

Lemma preserves_randint_n I (low high : Z) (n : nat) :
  preserves I (randint_n low high n).
Proof. unfold randint_n, randint. repeat preserves_step. Qed.

Lemma preserves_normal_n I (loc scale : float) (n : nat) :
  preserves I (normal_n loc scale n).
Proof. unfold normal_n. repeat preserves_step. Qed.

Lemma preserves_choice {A : Type} I (a : list A) : preserves I (choice a).
Proof. unfold choice. repeat preserves_step. Qed.

Lemma preserves_truediv I (a b : float) : preserves I (truediv a b).
Proof. unfold truediv. repeat preserves_step. Qed.

(** The writes go to the new individual and keep its shape. *)


Lemma preserves_set_hidden_gene (h0 : list (Individual G))
    (x : Individual G) (i : nat) (v : float) :
  preserves (extends_with h0 x) (set_hidden_gene (length h0) i v).
Proof.
  intros [h t p w] [y [Hh [Hg Hhid]]]. simpl in Hh. subst h.
  unfold set_hidden_gene. erewrite bind_ok by apply load_new.
  destruct (i <? length (hidden_genes y)); [| now exists y].
  rewrite store_new. eexists. split; [reflexivity |].
  repeat split; simpl; auto. now rewrite length_insert.
Qed.

Lemma preserves_set_genes_at (h0 : list (Individual G)) (x : Individual G)
    (hits : list nat) (vals : list G) :
  preserves (extends_with h0 x) (set_genes_at (length h0) hits vals).
Proof.
  intros [h t p w] [y [Hh [Hg Hhid]]]. simpl in Hh. subst h.
  unfold set_genes_at. erewrite bind_ok by apply load_new.
  rewrite store_new. eexists. split; [reflexivity |].
  repeat split; simpl; auto. now rewrite assign_at_length.
Qed.

(** A hook that copies the first individual of its batch and then works
    on the copy only copies on write. *)
Lemma copy_then_mutate (rest : ref -> M (state G) Population) :
  (forall h0 x, preserves (extends_with h0 x) (rest (length h0))) ->
  (forall r s1 pop' s', rest r s1 = (Ok pop', s') -> pop' = [r]) ->
  copies_on_write
    (fun container =>
       first <- Population_getitem container 0 ;;
       ind <- Individual_copy first ;;
       rest ind).
Proof.
  intros Hpres Hres container s.
  assert (Hcases :
    forall first x,
      container !! 0 = Some first -> heap s !! first = Some x ->
      (first <- Population_getitem container 0 ;;
       ind <- Individual_copy first ;;
       rest ind) s
      = rest (length (heap s))
          (mkState (heap s ++ [mkIndividual (genes x) (hidden_genes x) None]) (rng_tape s) (rng_pos s) (warnings s))).
  { intros first x Hfirst Hx. unfold Population_getitem.
    rewrite Hfirst, bind_ret_l.
    now erewrite bind_ok by (apply copy_eval, Hx). }
  split.
  - intros l ind Hl.
    destruct (container !! 0) as [first |] eqn:Hfirst.
    + destruct (heap s !! first) as [x |] eqn:Hx.
      * rewrite (Hcases first x eq_refl Hx).
        destruct (Hpres (heap s) x
                    (mkState (heap s ++ [mkIndividual (genes x) (hidden_genes x) None]) (rng_tape s) (rng_pos s)
                       (warnings s)))
          as [y [Hheap _]].
        -- eexists. split; [reflexivity | split; reflexivity].
        -- rewrite Hheap. now apply lookup_app_l_Some.
      * unfold Population_getitem. rewrite Hfirst, bind_ret_l.
        unfold Individual_copy, load, bind. rewrite Hx. exact Hl.
    + unfold Population_getitem. rewrite Hfirst. exact Hl.
  - intros first x pop' s' -> Hx Hrun.
    rewrite (Hcases first x eq_refl Hx) in Hrun.
    destruct (Hpres (heap s) x
                (mkState (heap s ++ [mkIndividual (genes x) (hidden_genes x) None]) (rng_tape s) (rng_pos s)
                   (warnings s)))
      as [y [Hheap Hshape]].
    { eexists. split; [reflexivity | split; reflexivity]. }
    rewrite Hrun in Hheap. simpl in Hheap.
    exists (length (heap s)), y.
    split; [exact (Hres _ _ _ _ Hrun) |].
    split; [apply lookup_ge_None; lia |].
    split; [| exact Hshape].
    rewrite Hheap. apply lookup_new.
Qed.

End FrameOperations.

Ltac hook_result H :=
  repeat (apply bind_ok_inv in H as (? & ? & _ & H); cbv beta zeta in H);
  now injection H.


Lemma UniformInt_copies_on_write (self : UniformInt.t) :
  copies_on_write (UniformInt._process_population self).
Proof.
  apply (copy_then_mutate
           (fun ind =>
              n <- len_genes ind ;;
              us <- random_sample_n n ;;
              let hits := where_le us (UniformInt._prob self) in
              vals <- randint_n (UniformInt._lowest self)
                        (UniformInt._highest self + 1)%Z (length hits) ;;
              set_genes_at ind hits vals ;;;
              ret (Population_of ind))).
  - intros h0 x.
    apply preserves_bind; [apply preserves_len_genes | intros n].
    apply preserves_bind; [apply preserves_random_sample_n | intros us].
    apply preserves_bind; [apply preserves_randint_n | intros vals].
    apply preserves_bind; [apply preserves_set_genes_at | intros _].
    apply preserves_ret.
  - intros r s1 pop' s' H. hook_result H.
Qed.


Lemma preserves_step_size (self : NormalDist.t)
    (h0 : list (Individual float)) (x : Individual float) :
  preserves (extends_with h0 x) (NormalDist.step_size self (length h0)).
Proof.
  unfold NormalDist.step_size.
  destruct (NormalDist._alpha self) as [alpha |]; [| apply preserves_ret].
  apply preserves_bind; [apply preserves_get_hidden_gene | intros sigma].
  apply preserves_bind; [apply preserves_get_hidden_gene | intros current].
  apply preserves_bind; [apply preserves_truediv | intros inverse].
  apply preserves_bind; [apply preserves_choice | intros factor].
  apply preserves_bind; [apply preserves_set_hidden_gene | intros _].
  apply preserves_ret.
Qed.

Lemma NormalDist_copies_on_write (self : NormalDist.t) :
  copies_on_write (NormalDist._process_population self).
Proof.
  apply (copy_then_mutate
           (fun ind =>
              n <- len_genes ind ;;
              us <- random_sample_n n ;;
              let hits := where_le us (NormalDist._prob self) in
              sigma <- NormalDist.step_size self ind ;;
              current <- get_genes_at ind hits ;;
              noise <- normal_n (NormalDist._mu self) sigma (length hits) ;;
              set_genes_at ind hits (zip_with fadd current noise) ;;;
              ret (Population_of ind))).
  - intros h0 x.
    apply preserves_bind; [apply preserves_len_genes | intros n].
    apply preserves_bind; [apply preserves_random_sample_n | intros us].
    apply preserves_bind; [apply preserves_step_size | intros sigma].
    apply preserves_bind; [apply preserves_get_genes_at | intros current].
    apply preserves_bind; [apply preserves_normal_n | intros noise].
    apply preserves_bind; [apply preserves_set_genes_at | intros _].
    apply preserves_ret.
  - intros r s1 pop' s' H. hook_result H.
Qed.




(** ** More on [OperatorChain.process] *)

Section ChainSteps.

Context {G : Type}.

Lemma for_each_app {S A B : Type} (xs ys : list A)
    (body : B -> A -> M S B) :
  forall (acc : B) (s : S),
    for_each (xs ++ ys) acc body s
    = bind (for_each xs acc body) (fun acc' => for_each ys acc' body) s.
Proof.
  induction xs as [| x xs IH]; intros acc s; simpl.
  - reflexivity.
  - rewrite bind_assoc. apply bind_ext. intros acc' s'. apply IH.
Qed.

(** X1.  A chain of the steps [steps1] followed by the steps [steps2]
    processes a container as the chain of [steps1] and then, on what that
    returns and in the state it leaves, the chain of [steps2]; when the
    first part raises, the whole chain raises the same exception in the
    same state and no step of the second part runs.  This holds for steps
    that are operators and for steps that are lists of operators. *)
Theorem chain_append_composes (steps1 steps2 : list (OperatorChain.step G))
    (container : pyobj) (pool : option GenePool) (s : state G) :
  OperatorChain.process {| OperatorChain._operators := steps1 ++ steps2 |}
    container pool s
  = (c <- OperatorChain.process {| OperatorChain._operators := steps1 |}
            container pool ;;
     OperatorChain.process {| OperatorChain._operators := steps2 |} c pool)
      s
  /\ forall (e : exn) (s' : state G),
       OperatorChain.process {| OperatorChain._operators := steps1 |}
         container pool s = (Raise e, s') ->
       OperatorChain.process
         {| OperatorChain._operators := steps1 ++ steps2 |} container pool s
       = (Raise e, s').
Proof.
  assert (Happ :
    OperatorChain.process {| OperatorChain._operators := steps1 ++ steps2 |}
      container pool s
    = (c <- OperatorChain.process {| OperatorChain._operators := steps1 |}
              container pool ;;
       OperatorChain.process {| OperatorChain._operators := steps2 |} c
         pool) s).
  { unfold OperatorChain.process. cbn [OperatorChain._operators].
    apply for_each_app. }
  split; [exact Happ |].
  intros e s' Hraise. rewrite Happ. now apply bind_raise.
Qed.

End ChainSteps.

Lemma chain_append_composes_witness :
  OperatorChain.process
    {| OperatorChain._operators :=
         [OperatorChain.Single Examples.operator]
         ++ [OperatorChain.Alternatives []] |}
    (ObjPopulation [0]) None (Examples.initial [] Examples.zeros)
  = (Raise (ValueError "low >= high"),
     set_warnings [Operator.not_processed "Operator" "Population"]
       (Examples.initial [] Examples.zeros)).
Proof.
  rewrite (proj1 (chain_append_composes
                    [OperatorChain.Single Examples.operator]
                    [OperatorChain.Alternatives []]
                    (ObjPopulation [0]) None
                    (Examples.initial [] Examples.zeros))).
  reflexivity.
Defined.

(** ** The kind of container that comes back *)

Section Kinds.

Context {G : Type}.

Lemma same_kind_refl (v : pyobj) : is_container v = true -> same_kind v v.
Proof. destruct v; simpl; intros H; try discriminate; exact I. Qed.

Lemma same_kind_trans (u v w : pyobj) :
  same_kind u v -> same_kind v w -> same_kind u w.
Proof. destruct u, v, w; simpl; tauto. Qed.

Lemma same_kind_container (v w : pyobj) :
  same_kind v w -> is_container w = true.
Proof. destruct v, w; simpl; intros H; try contradiction; reflexivity. Qed.

Lemma operator_keeps_kind (self : Operator.t G) (v w : pyobj)
    (pool : option GenePool) (s s' : state G) :
  Operator.process self v pool s = (Ok w, s') -> same_kind v w.
Proof.
  intros H. destruct v; simpl in H; try discriminate H.
  - apply bind_ok_inv in H as (population & s1 & _ & H).
    injection H as <- _. exact I.
  - apply bind_ok_inv in H as (community & s1 & _ & H).
    injection H as <- _. exact I.
Qed.

Lemma chain_keeps_kind (pool : option GenePool)
    (steps : list (OperatorChain.step G)) :
  forall (v w : pyobj) (s s' : state G),
    is_container v = true ->
    OperatorChain.process {| OperatorChain._operators := steps |} v pool s
    = (Ok w, s') ->
    same_kind v w.
Proof.
  unfold OperatorChain.process. cbn [OperatorChain._operators].
  induction steps as [| step rest IH]; intros v w s s' Hv H.
  - injection H as <- _. now apply same_kind_refl.
  - simpl in H.
    apply bind_ok_inv in H as (v1 & s1 & Hstep & Hrest).
    apply bind_ok_inv in Hstep as (operator & s0 & _ & Hprocess).
    apply operator_keeps_kind in Hprocess.
    apply (same_kind_trans v v1 w Hprocess).
    apply (IH v1 w s1 s'); [| exact Hrest].
    exact (same_kind_container v v1 Hprocess).
Qed.

(** X2.  Whatever its hooks and its iteration type are, an operator that
    returns from [process] returns a population for a population and a
    community for a community, and it returns for nothing else; a chain
    that returns for a population or a community returns a container of
    the same kind, whatever its steps are. *)
Theorem process_keeps_kind (v w : pyobj) (pool : option GenePool)
    (s s' : state G) :
  (forall self : Operator.t G,
     Operator.process self v pool s = (Ok w, s') -> same_kind v w)
  /\ (forall self : OperatorChain.t G,
        is_container v = true ->
        OperatorChain.process self v pool s = (Ok w, s') ->
        same_kind v w).
Proof.
  split.
  - intros self. apply operator_keeps_kind.
  - intros [steps]. apply chain_keeps_kind.
Qed.

(** X3.  A chain without steps returns whatever it is given, also an
    object that is no container; a chain with at least one step never
    returns for an object that is neither a population nor a community: its
    first step raises. *)
Theorem chain_rejects_other_objects (v : pyobj) (pool : option GenePool)
    (s : state G) :
  is_container v = false ->
  OperatorChain.process {| OperatorChain._operators := [] |} v pool s
  = (Ok v, s)
  /\ forall (step : OperatorChain.step G)
            (rest : list (OperatorChain.step G)),
       exists (e : exn) (s' : state G),
         OperatorChain.process
           {| OperatorChain._operators := step :: rest |} v pool s
         = (Raise e, s').
Proof.
  intros Hv. split; [reflexivity |].
  intros step rest. unfold OperatorChain.process.
  cbn [OperatorChain._operators for_each].
  assert (Hreject :
    forall (operator : Operator.t G) (s0 : state G),
      Operator.process operator v pool s0
      = (Raise
           (TypeError "Operator can only process populations or communities"),
         s0)).
  { intros operator s0. destruct v; simpl in Hv; try discriminate;
      reflexivity. }
  destruct step as [operator | operators].
  - do 2 eexists. apply bind_raise. rewrite bind_ret_l. apply Hreject.
  - destruct (OperatorChain.pick operators s) as [[operator | e] s0] eqn:Hpick.
    + do 2 eexists. apply bind_raise.
      erewrite bind_ok by exact Hpick. apply Hreject.
    + do 2 eexists. apply bind_raise.
      erewrite bind_raise by exact Hpick. reflexivity.
Qed.

End Kinds.

Lemma process_keeps_kind_witness :
  same_kind (ObjCommunity [[0]; [1]]) (ObjCommunity [[0]; [1]]).
Proof.
  refine (proj1 (process_keeps_kind (ObjCommunity [[0]; [1]])
                   (ObjCommunity [[0]; [1]]) None
                   (Examples.initial [] Examples.zeros) _)
            Examples.operator _).
  reflexivity.
Defined.

Lemma chain_rejects_other_objects_witness :
  is_container (ObjStr "population") = false
  /\ exists (e : exn) (s' : state bool),
       OperatorChain.process
         {| OperatorChain._operators :=
              [OperatorChain.Alternatives [Examples.operator]] |}
         (ObjStr "population") None (Examples.initial [] Examples.zeros)
       = (Raise e, s').
Proof.
  split; [reflexivity |].
  exact (proj2 (chain_rejects_other_objects (ObjStr "population") None
                  (Examples.initial [] Examples.zeros) eq_refl)
           (OperatorChain.Alternatives [Examples.operator]) []).
Defined.

(** ** Steps that are lists of operators *)

Section Alternatives.

Context {G : Type}.

Lemma pick_eval (operators : list (Operator.t G)) (s : state G) :
  operators <> [] ->
  (Z.of_nat (length operators) <= 2 ^ 63)%Z ->
  exists operator : Operator.t G,
    operators
      !! (N.to_nat (rng_tape s (rng_pos s)) mod length operators)
    = Some operator
    /\ OperatorChain.pick operators s
       = (Ok operator, set_rng_pos (S (rng_pos s)) s).
Proof.
  intros Hne Hlen.
  assert (Hpos : 0 < length operators).
  { destruct operators; [congruence | simpl; lia]. }
  destruct (lookup_lt_is_Some_2 operators
              (N.to_nat (rng_tape s (rng_pos s)) mod length operators))
    as [operator Hop].
  { apply Nat.mod_upper_bound. lia. }
  exists operator. split; [exact Hop |].
  unfold OperatorChain.pick, randint.
  assert (Hb : randint_bounds 0 (Z.of_nat (length operators)) = Ok tt).
  { apply randint_bounds_ok. lia. }
  rewrite Hb, bind_assoc. unfold bind at 1, next_raw at 1.
  rewrite bind_ret_l. unfold int_of_raw.
  replace (Z.to_nat
             (0 + Z.of_N (rng_tape s (rng_pos s))
                  mod (Z.of_nat (length operators) - 0)))
    with (N.to_nat (rng_tape s (rng_pos s)) mod length operators).
  - now rewrite Hop.
  - rewrite Z.add_0_l, Z.sub_0_r. apply Nat2Z.inj.
    rewrite Nat2Z.inj_mod, N_nat_Z, Z2Nat.id; [reflexivity |].
    apply Z.mod_pos_bound. lia.
Qed.

(** X4.  A step that is a list of operators: for the empty list the step
    raises numpy's [ValueError] before the container is looked at; for a
    list that is not empty the step draws one raw output, the index
    [raw mod len] always is in the list, and the chain goes on with
    [process] of the operator at that index, so that exactly one member of
    the list runs; every member is the choice for some output of the
    generator. *)
Theorem alternatives_run_one_member (operators : list (Operator.t G))
    (rest : list (OperatorChain.step G)) (container : pyobj)
    (pool : option GenePool) (s : state G) :
  (Z.of_nat (length operators) <= 2 ^ 63)%Z ->
  (operators = [] ->
   OperatorChain.process
     {| OperatorChain._operators :=
          OperatorChain.Alternatives operators :: rest |} container pool s
   = (Raise (ValueError "low >= high"), s))
  /\ (operators <> [] ->
      exists operator : Operator.t G,
        operators
          !! (N.to_nat (rng_tape s (rng_pos s)) mod length operators)
        = Some operator
        /\ OperatorChain.process
             {| OperatorChain._operators :=
                  OperatorChain.Alternatives operators :: rest |}
             container pool s
           = (c <- Operator.process operator container pool ;;
              OperatorChain.process
                {| OperatorChain._operators := rest |} c pool)
               (set_rng_pos (S (rng_pos s)) s))
  /\ (forall (k : nat) (operator : Operator.t G),
        operators !! k = Some operator ->
        rng_tape s (rng_pos s) = N.of_nat k ->
        OperatorChain.pick operators s
        = (Ok operator, set_rng_pos (S (rng_pos s)) s)).
Proof.
  intros Hlen. split; [| split].
  - intros ->. reflexivity.
  - intros Hne. destruct (pick_eval operators s Hne Hlen)
      as [operator [Hop Hpick]].
    exists operator. split; [exact Hop |].
    unfold OperatorChain.process.
    cbn [OperatorChain._operators for_each].
    rewrite bind_assoc. erewrite bind_ok by exact Hpick. reflexivity.
  - intros k operator Hk Hraw.
    assert (Hne : operators <> []) by (intros ->; discriminate Hk).
    destruct (pick_eval operators s Hne Hlen) as [operator' [Hop Hpick]].
    rewrite Hraw, Nat2N.id in Hop.
    rewrite Nat.mod_small in Hop by (eapply lookup_lt_Some; exact Hk).
    rewrite Hk in Hop. injection Hop as <-. exact Hpick.
Qed.

(** X5.  The [TypeError] of a population hook that is declared without
    [pool] does not depend on the iteration type: after any iteration type
    is assigned to [iter_type], [process] raises it for every population
    for which the iteration yields at least one batch, with the state
    untouched, and returns the empty population when the iteration yields
    none. *)
Theorem plain_hook_raises_for_any_iteration (self : Operator.t G)
    (f : Population -> M (state G) Population) (it : IterationType)
    (p : Population) (pool : option GenePool) (s : state G) :
  Operator.population_hook self = Operator.MethodPlain f ->
  exists self' : Operator.t G,
    Operator.iter_type_setter self (ObjIterationType it) = Ok self'
    /\ (iterate_population it p <> [] ->
        Operator.process self' (ObjPopulation p) pool s
        = (Raise (TypeError "got an unexpected keyword argument 'pool'"),
           s))
    /\ (iterate_population it p = [] ->
        Operator.process self' (ObjPopulation p) pool s
        = (Ok (ObjPopulation []), s)).
Proof.
  intros Hhook. eexists. split; [reflexivity |]. split.
  - intros Hbatches. eapply process_plain_hook_raises; eassumption.
  - intros Hnone. unfold Operator.process.
    cbn [Operator._iter_type]. rewrite Hnone. reflexivity.
Qed.

End Alternatives.

Lemma alternatives_run_one_member_witness :
  (Z.of_nat (length [Examples.operator; Examples.operator]) <= 2 ^ 63)%Z
  /\ OperatorChain.pick [Examples.operator; Examples.operator]
       (Examples.initial [] (fun _ => 1%N))
     = (Ok Examples.operator,
        set_rng_pos 1 (Examples.initial [] (fun _ => 1%N))).
Proof.
  assert (Hlen : (Z.of_nat (length [Examples.operator; Examples.operator])
                  <= 2 ^ 63)%Z) by (vm_compute; discriminate).
  split; [exact Hlen |].
  exact (proj2 (proj2 (alternatives_run_one_member
                         [Examples.operator; Examples.operator] []
                         ObjNone None
                         (Examples.initial [] (fun _ => 1%N)) Hlen))
           1 Examples.operator eq_refl eq_refl).
Defined.

Lemma plain_hook_raises_for_any_iteration_witness :
  Operator.population_hook (BitFlip.as_operator Examples.flip_always)
  = Operator.MethodPlain
      (BitFlip._process_population Examples.flip_always)
  /\ exists self' : Operator.t bool,
       Operator.iter_type_setter (BitFlip.as_operator Examples.flip_always)
         (ObjIterationType WholeIteration) = Ok self'
       /\ Operator.process self' (ObjPopulation [0; 1]) None
            (Examples.initial [] Examples.zeros)
          = (Raise (TypeError "got an unexpected keyword argument 'pool'"),
             Examples.initial [] Examples.zeros).
Proof.
  split; [reflexivity |].
  destruct (plain_hook_raises_for_any_iteration
              (BitFlip.as_operator Examples.flip_always)
              (BitFlip._process_population Examples.flip_always)
              WholeIteration [0; 1] None
              (Examples.initial [] Examples.zeros) eq_refl)
    as [self' [Hset [Hraise _]]].
  exists self'. split; [exact Hset |]. apply Hraise. discriminate.
Defined.

(** ** The batch of a mutation step *)

Ltac hook_single H :=
  repeat (apply bind_ok_inv in H as (? & ? & _ & H); cbv beta zeta in H);
  injection H as <- _; reflexivity.

(** X6.  Each of the four mutation steps reads its batch through
    [container[0]] only: the individuals after the first play no role and
    are not part of the result, which is a population of exactly one
    individual whenever the step returns. *)
Theorem mutation_hooks_use_first_individual :
  (forall self : BitFlip.t,
     uses_first_individual_only (BitFlip._process_population self))
  /\ (forall self : UniformInt.t,
        uses_first_individual_only (UniformInt._process_population self))
  /\ (forall self : UniformFloat.t,
        uses_first_individual_only (UniformFloat._process_population self))
  /\ (forall self : NormalDist.t,
        uses_first_individual_only (NormalDist._process_population self)).
Proof.
  repeat split; try reflexivity; intros container pop' s s' H.
  - unfold BitFlip._process_population in H. hook_single H.
  - unfold UniformInt._process_population in H. hook_single H.
  - unfold UniformFloat._process_population in H. hook_single H.
  - unfold NormalDist._process_population in H. hook_single H.
Qed.

(** ** Probabilities outside [[0, 1)] *)

Lemma sample_bounds (raw : N) :
  (0 <= sample_of_raw raw)%Q /\ (sample_of_raw raw < 1)%Q.
Proof.
  pose proof (raw_mod_bounds raw) as Hb.
  unfold sample_of_raw, Qle, Qlt. cbn [Qnum Qden].
  rewrite two_pow_53. lia.
Qed.

(** With a probability of at least 1 every gene is selected. *)
Lemma selected_at_least_one {G : Type} (s : state G) (prob : Q) (i : nat) :
  (1 <= prob)%Q -> selected s prob i = true.
Proof.
  intros H. unfold selected, sample_at. apply Qle_bool_iff.
  apply Qle_trans with 1%Q; [| exact H].
  apply Qlt_le_weak, sample_bounds.
Qed.

(** With a negative probability no gene is selected. *)
Lemma selected_negative {G : Type} (s : state G) (prob : Q) (i : nat) :
  (prob < 0)%Q -> selected s prob i = false.
Proof.
  intros H. unfold selected, sample_at.
  destruct (Qle_bool (sample_of_raw (rng_tape s (rng_pos s + i))) prob)
    eqn:E; [| reflexivity].
  apply Qle_bool_iff in E. exfalso.
  apply (Qlt_irrefl 0). apply Qle_lt_trans with prob; [| exact H].
  apply Qle_trans with (sample_of_raw (rng_tape s (rng_pos s + i)));
    [apply sample_bounds | exact E].
Qed.

Lemma hits_of_negative {G : Type} (s : state G) (prob : Q) (n : nat) :
  (prob < 0)%Q -> hits_of s prob n = [].
Proof.
  intros H. destruct (hits_of s prob n) as [| i rest] eqn:E;
    [reflexivity |].
  assert (Hin : i ∈ hits_of s prob n) by (rewrite E; apply elem_of_cons; now left).
  apply where_le_selected in Hin as [_ Hsel].
  rewrite (selected_negative s prob i H) in Hsel. discriminate.
Qed.

(** X7.  [BitFlip] with a probability of 1.0 or more, which the
    constructor accepts, flips every gene, whatever the generator yields:
    the genes of the returned individual are the negations of the genes of
    the input individual, and its hidden genes are those of the input. *)
Theorem BitFlip_prob_at_least_one_flips_all (self : BitFlip.t)
    (s : state bool) (first : ref) (x : Individual bool) :
  (1 <= BitFlip._prob self)%Q ->
  heap s !! first = Some x ->
  exists (s' : state bool) (y : Individual bool),
    BitFlip._process_population self [first] s
    = (Ok [length (heap s)], s')
    /\ heap s' !! length (heap s) = Some y
    /\ genes y = map negb (genes x)
    /\ hidden_genes y = hidden_genes x.
Proof.
  intros Hprob Hx. do 2 eexists.
  split; [apply (BitFlip_eval self [first] s first x eq_refl Hx) |].
  cbn [heap]. split; [apply lookup_new |]. cbn [genes hidden_genes].
  split; [| reflexivity].
  apply list_eq. intros i.
  rewrite list_lookup_imap, list_lookup_fmap.
  now rewrite (selected_at_least_one s _ i Hprob).
Qed.

Lemma BitFlip_prob_at_least_one_flips_all_witness :
  (1 <= BitFlip._prob Examples.flip_always)%Q
  /\ exists (s' : state bool) (y : Individual bool),
       BitFlip._process_population Examples.flip_always [0]
         (Examples.initial [Examples.bits [true; false]] Examples.zeros)
       = (Ok [1], s')
       /\ heap s' !! 1 = Some y
       /\ genes y = [false; true].
Proof.
  assert (Hprob : (1 <= BitFlip._prob Examples.flip_always)%Q)
    by discriminate.
  split; [exact Hprob |].
  destruct (BitFlip_prob_at_least_one_flips_all Examples.flip_always
              (Examples.initial [Examples.bits [true; false]]
                 Examples.zeros)
              0 (Examples.bits [true; false]) Hprob eq_refl)
    as [s' [y [Hrun [Hy [Hgenes _]]]]].
  exists s', y. repeat split; assumption.
Defined.

(** X8.  Two successive applications of [BitFlip] with a probability of
    1.0 or more, the second to the population the first returned, return
    an individual with the genes of the input individual; the input
    individual itself is as before. *)
Theorem BitFlip_twice_restores_genes (self : BitFlip.t) (s : state bool)
    (first : ref) (x : Individual bool) :
  (1 <= BitFlip._prob self)%Q ->
  heap s !! first = Some x ->
  exists (s' : state bool) (y : Individual bool),
    (once <- BitFlip._process_population self [first] ;;
     BitFlip._process_population self once) s
    = (Ok [S (length (heap s))], s')
    /\ heap s' !! S (length (heap s)) = Some y
    /\ genes y = genes x
    /\ heap s' !! first = Some x.
Proof.
  intros Hprob Hx.
  pose proof (BitFlip_eval self [first] s first x eq_refl Hx) as H1.
  match type of H1 with
  | _ = (_, ?s1) =>
      pose proof (BitFlip_eval self [length (heap s)] s1 (length (heap s))
                    _ eq_refl (lookup_new _ _)) as H2
  end.
  cbn [heap genes hidden_genes fitness rng_tape rng_pos warnings] in H2.
  rewrite length_app, Nat.add_1_r in H2.
  do 2 eexists. split.
  { erewrite bind_ok by exact H1. exact H2. }
  cbn [heap]. split.
  { match goal with
    | |- (?h ++ [_]) !! _ = _ =>
        replace (S (length (heap s))) with (length h)
          by (rewrite length_app, Nat.add_1_r; reflexivity)
    end.
    apply lookup_new. }
  cbn [genes]. split.
  - apply list_eq. intros i.
    rewrite !list_lookup_imap.
    rewrite !(selected_at_least_one _ _ i Hprob).
    destruct (genes x !! i) as [g |]; [| reflexivity]. simpl.
    now rewrite negb_involutive.
  - rewrite <- app_assoc. now apply lookup_app_l_Some.
Qed.

Lemma BitFlip_twice_restores_genes_witness :
  (1 <= BitFlip._prob Examples.flip_always)%Q
  /\ exists (s' : state bool) (y : Individual bool),
       (once <- BitFlip._process_population Examples.flip_always [0] ;;
        BitFlip._process_population Examples.flip_always once)
         (Examples.initial [Examples.bits [true; false]] Examples.zeros)
       = (Ok [2], s')
       /\ heap s' !! 2 = Some y
       /\ genes y = [true; false].
Proof.
  assert (Hprob : (1 <= BitFlip._prob Examples.flip_always)%Q)
    by discriminate.
  split; [exact Hprob |].
  destruct (BitFlip_twice_restores_genes Examples.flip_always
              (Examples.initial [Examples.bits [true; false]]
                 Examples.zeros)
              0 (Examples.bits [true; false]) Hprob eq_refl)
    as [s' [y [Hrun [Hy [Hgenes _]]]]].
  exists s', y. repeat split; assumption.
Defined.

(** ** The vectorised steps, in full *)

Lemma UniformFloat_eval_exact (self : UniformFloat.t)
    (container : Population) (s : state Q) (first : ref)
    (x : Individual Q) :
  container !! 0 = Some first ->
  heap s !! first = Some x ->
  UniformFloat._process_population self container s
  = (Ok [length (heap s)],
     mkState
       (heap s
        ++ [mkIndividual
              (assign_at (genes x)
                 (hits_of s (UniformFloat._prob self) (length (genes x)))
                 (map (fun u =>
                         (UniformFloat._highest self
                          - UniformFloat._lowest self) * u
                         + UniformFloat._lowest self)%Q
                    (map (fun j =>
                            sample_of_raw
                              (rng_tape s
                                 (rng_pos s + length (genes x) + j)))
                       (seq 0
                          (length
                             (hits_of s (UniformFloat._prob self)
                                (length (genes x))))))))
              (hidden_genes x) None])
       (rng_tape s)
       (rng_pos s + length (genes x)
        + length (hits_of s (UniformFloat._prob self) (length (genes x))))
       (warnings s)).
Proof.
  intros Hfirst Hx.
  unfold UniformFloat._process_population, Population_getitem.
  rewrite Hfirst, bind_ret_l.
  erewrite bind_ok by (apply copy_eval, Hx).
  erewrite bind_ok by apply len_genes_new.
  cbn [genes hidden_genes fitness].
  erewrite bind_ok by apply random_sample_n_eval.
  cbv zeta.
  erewrite bind_ok by apply random_sample_n_eval.
  erewrite bind_ok by apply set_genes_at_new.
  reflexivity.
Qed.

Lemma NormalDist_eval_fixed_exact (self : NormalDist.t)
    (container : Population) (s : state float) (first : ref)
    (x : Individual float) :
  container !! 0 = Some first ->
  heap s !! first = Some x ->
  NormalDist._alpha self = None ->
  scale_refused (NormalDist._sigma self) = false ->
  NormalDist._process_population self container s
  = (Ok [length (heap s)],
     mkState
       (heap s
        ++ [mkIndividual
              (assign_at (genes x)
                 (hits_of s (NormalDist._prob self) (length (genes x)))
                 (zip_with fadd
                    (map (fun i => default (S754_zero false) (genes x !! i))
                       (hits_of s (NormalDist._prob self)
                          (length (genes x))))
                    (map (fun j =>
                            fadd (NormalDist._mu self)
                              (fmul (NormalDist._sigma self)
                                 (deviate_of_raw
                                    (rng_tape s
                                       (rng_pos s + length (genes x) + j)))))
                       (seq 0
                          (length
                             (hits_of s (NormalDist._prob self)
                                (length (genes x))))))))
              (hidden_genes x) None])
       (rng_tape s)
       (rng_pos s + length (genes x)
        + length (hits_of s (NormalDist._prob self) (length (genes x))))
       (warnings s)).
Proof.
  intros Hfirst Hx Halpha Hsigma.
  unfold NormalDist._process_population, Population_getitem.
  rewrite Hfirst, bind_ret_l.
  erewrite bind_ok by (apply copy_eval, Hx).
  erewrite bind_ok by apply len_genes_new.
  cbn [genes hidden_genes fitness].
  erewrite bind_ok by apply random_sample_n_eval.
  cbv zeta.
  erewrite bind_ok by (apply step_size_fixed, Halpha).
  erewrite bind_ok; cycle 1.
  { apply get_genes_at_new, (values_at_in_range (S754_zero false)).
    cbn [genes]. intros i Hi.
    exact (hits_in_range self s x i Hi). }
  erewrite bind_ok by (apply normal_n_eval, Hsigma).
  erewrite bind_ok by apply set_genes_at_new.
  reflexivity.
Qed.

(** X9.  With a negative probability, which the constructors accept, no
    Bernoulli trial succeeds whatever the generator yields, and the
    mutation step returns an exact copy: a new individual with the genes
    and hidden genes of the input individual.  This holds for [BitFlip]
    and [UniformFloat], for [UniformInt] with bounds that numpy accepts,
    and for [NormalDist] without [alpha] and with a [sigma] that is not
    NaN and has a clear sign bit. *)
Theorem negative_prob_returns_copies :
  (forall self : BitFlip.t,
     (BitFlip._prob self < 0)%Q ->
     returns_exact_copy (BitFlip._process_population self))
  /\ (forall self : UniformInt.t,
        (UniformInt._prob self < 0)%Q ->
        (- 2 ^ 63 <= UniformInt._lowest self)%Z ->
        (UniformInt._lowest self <= UniformInt._highest self)%Z ->
        (UniformInt._highest self < 2 ^ 63)%Z ->
        returns_exact_copy (UniformInt._process_population self))
  /\ (forall self : UniformFloat.t,
        (UniformFloat._prob self < 0)%Q ->
        returns_exact_copy (UniformFloat._process_population self))
  /\ (forall self : NormalDist.t,
        (NormalDist._prob self < 0)%Q ->
        NormalDist._alpha self = None ->
        sign_clear (NormalDist._sigma self) = true ->
        returns_exact_copy (NormalDist._process_population self)).
Proof.
  split; [| split; [| split]]; intros self Hprob.
  - intros first x s Hx. do 2 eexists.
    split; [apply (BitFlip_eval self [first] s first x eq_refl Hx) |].
    cbn [heap]. split; [apply lookup_new |]. cbn [genes hidden_genes].
    split; [| reflexivity].
    apply list_eq. intros i. rewrite list_lookup_imap.
    rewrite (selected_negative s _ i Hprob).
    now destruct (genes x !! i).
  - intros Hlow Hle Hhigh first x s Hx. do 2 eexists. split.
    { apply (UniformInt_eval self [first] s first x eq_refl Hx).
      right. apply randint_bounds_ok. lia. }
    cbn [heap]. split; [apply lookup_new |]. cbn [genes hidden_genes].
    split; [| reflexivity].
    now rewrite (hits_of_negative s _ _ Hprob).
  - intros first x s Hx. do 2 eexists.
    split; [apply (UniformFloat_eval_exact self [first] s first x eq_refl Hx) |].
    cbn [heap]. split; [apply lookup_new |]. cbn [genes hidden_genes].
    split; [| reflexivity].
    now rewrite (hits_of_negative s _ _ Hprob).
  - intros Halpha Hsigma first x s Hx. do 2 eexists.
    split; [apply (NormalDist_eval_fixed_exact self [first] s first x eq_refl
                     Hx Halpha (sign_clear_accepted _ Hsigma)) |].
    cbn [heap]. split; [apply lookup_new |]. cbn [genes hidden_genes].
    split; [| reflexivity].
    now rewrite (hits_of_negative s _ _ Hprob).
Qed.

Lemma negative_prob_returns_copies_witness :
  exists (s' : state Q) (y : Individual Q),
    UniformFloat._process_population
      {| UniformFloat._iter_type := SingleIteration;
         UniformFloat._prob := - (1 # 2);
         UniformFloat._lowest := 0;
         UniformFloat._highest := 3 |} [0]
      (Examples.initial [Examples.reals [5; 7]%Q [fone]] Examples.zeros)
    = (Ok [1], s')
    /\ heap s' !! 1 = Some y
    /\ genes y = [5; 7]%Q
    /\ hidden_genes y = [fone].
Proof.
  destruct negative_prob_returns_copies as [_ [_ [Hfloat _]]].
  apply (Hfloat
           {| UniformFloat._iter_type := SingleIteration;
              UniformFloat._prob := - (1 # 2);
              UniformFloat._lowest := 0;
              UniformFloat._highest := 3 |}
           ltac:(reflexivity) 0 (Examples.reals [5; 7]%Q [fone])).
  reflexivity.
Defined.

(** X10.  How many raw outputs of the generator a mutation step that
    returns has consumed: [BitFlip] one for each gene, whatever [prob]
    is; [UniformInt] with a range that is not empty, [UniformFloat], and
    [NormalDist] without [alpha] and with a [sigma] that is not NaN and
    has a clear sign bit, one for each gene and one more for each selected
    gene.  The stream of the generator itself and the log of warnings are
    as before. *)
Theorem mutation_draw_counts (first : ref) :
  (forall (self : BitFlip.t) (s : state bool) (x : Individual bool),
     heap s !! first = Some x ->
     exists h',
       BitFlip._process_population self [first] s
       = (Ok [length (heap s)],
          mkState h' (rng_tape s) (rng_pos s + length (genes x))
            (warnings s)))
  /\ (forall (self : UniformInt.t) (s : state Z) (x : Individual Z),
        heap s !! first = Some x ->
        (- 2 ^ 63 <= UniformInt._lowest self)%Z ->
        (UniformInt._lowest self <= UniformInt._highest self)%Z ->
        (UniformInt._highest self < 2 ^ 63)%Z ->
        exists h',
          UniformInt._process_population self [first] s
          = (Ok [length (heap s)],
             mkState h' (rng_tape s)
               (rng_pos s + length (genes x)
                + length (hits_of s (UniformInt._prob self)
                            (length (genes x))))
               (warnings s)))
  /\ (forall (self : UniformFloat.t) (s : state Q) (x : Individual Q),
        heap s !! first = Some x ->
        exists h',
          UniformFloat._process_population self [first] s
          = (Ok [length (heap s)],
             mkState h' (rng_tape s)
               (rng_pos s + length (genes x)
                + length (hits_of s (UniformFloat._prob self)
                            (length (genes x))))
               (warnings s)))
  /\ (forall (self : NormalDist.t) (s : state float)
             (x : Individual float),
        heap s !! first = Some x ->
        NormalDist._alpha self = None ->
        sign_clear (NormalDist._sigma self) = true ->
        exists h',
          NormalDist._process_population self [first] s
          = (Ok [length (heap s)],
             mkState h' (rng_tape s)
               (rng_pos s + length (genes x)
                + length (hits_of s (NormalDist._prob self)
                            (length (genes x))))
               (warnings s))).
Proof.
  split; [| split; [| split]].
  - intros self s x Hx. eexists.
    apply (BitFlip_eval self [first] s first x eq_refl Hx).
  - intros self s x Hx Hlow Hle Hhigh. eexists.
    apply (UniformInt_eval self [first] s first x eq_refl Hx).
    right. apply randint_bounds_ok. lia.
  - intros self s x Hx. eexists.
    apply (UniformFloat_eval_exact self [first] s first x eq_refl Hx).
  - intros self s x Hx Halpha Hsigma. eexists.
    apply (NormalDist_eval_fixed_exact self [first] s first x eq_refl Hx
             Halpha (sign_clear_accepted _ Hsigma)).
Qed.

Lemma mutation_draw_counts_witness :
  exists h',
    BitFlip._process_population Examples.flip_never [0]
      (Examples.initial [Examples.bits [true; false; true]] (fun _ => 7%N))
    = (Ok [1], mkState h' (fun _ => 7%N) 3 []).
Proof.
  destruct (mutation_draw_counts 0) as [Hb _].
  exact (Hb Examples.flip_never
           (Examples.initial [Examples.bits [true; false; true]]
              (fun _ => 7%N))
           (Examples.bits [true; false; true]) eq_refl).
Defined.

(** ** Ranges that are a single value, ranges that are empty *)



(** X12.  [UniformInt] with [lowest > highest] (int64 values, which the
    constructor accepts) raises numpy's [ValueError] for an empty range as
    soon as the Bernoulli trial selects at least one gene; the caller's
    individual is as before. *)
Theorem UniformInt_empty_range_raises (self : UniformInt.t) (s : state Z)
    (first : ref) (x : Individual Z) (i : nat) :
  (- 2 ^ 63 <= UniformInt._highest self + 1)%Z ->
  (UniformInt._highest self < UniformInt._lowest self)%Z ->
  (UniformInt._lowest self < 2 ^ 63)%Z ->
  heap s !! first = Some x ->
  i < length (genes x) ->
  selected s (UniformInt._prob self) i = true ->
  fst (UniformInt._process_population self [first] s)
  = Raise (ValueError "low >= high")
  /\ heap (snd (UniformInt._process_population self [first] s)) !! first
     = Some x.
Proof.
  intros Hhigh Hlt Hlow Hx Hi Hsel. split.
  - apply (UniformInt_raise self [first] s first x eq_refl Hx).
    + intros Hnone.
      assert (Hin : i ∈ hits_of s (UniformInt._prob self)
                          (length (genes x)))
        by (apply where_le_selected; auto).
      rewrite Hnone in Hin. now apply elem_of_nil in Hin.
    + unfold randint_bounds.
      destruct (Z.ltb_spec (UniformInt._lowest self) (- 2 ^ 63)); [lia |].
      destruct (Z.ltb_spec (2 ^ 63) (UniformInt._highest self + 1));
        [lia |].
      destruct (Z.leb_spec (UniformInt._highest self + 1)
                  (UniformInt._lowest self)); [reflexivity | lia].
  - destruct (UniformInt_copies_on_write self [first] s) as [Hframe _].
    exact (Hframe first x Hx).
Qed.

Lemma UniformInt_empty_range_raises_witness :
  fst (UniformInt._process_population
         {| UniformInt._iter_type := SingleIteration;
            UniformInt._prob := 1;
            UniformInt._lowest := 1;
            UniformInt._highest := 0 |} [0]
         (Examples.initial [Examples.integers [5; 7]%Z] Examples.zeros))
  = Raise (ValueError "low >= high").
Proof.
  refine (proj1 (UniformInt_empty_range_raises
                   {| UniformInt._iter_type := SingleIteration;
                      UniformInt._prob := 1;
                      UniformInt._lowest := 1;
                      UniformInt._highest := 0 |}
                   (Examples.initial [Examples.integers [5; 7]%Z]
                      Examples.zeros)
                   0 (Examples.integers [5; 7]%Z) 0 _ _ _ eq_refl _ eq_refl));
    vm_compute; first [discriminate | reflexivity | lia].
Defined.

(** ** [NormalDist]: the noise *)

Lemma where_from_NoDup (bs : list bool) :
  forall k : nat, NoDup (where_from k bs).
Proof.
  induction bs as [| b bs IH]; intros k; simpl; [constructor |].
  destruct b; [| apply IH].
  constructor; [| apply IH].
  intros Hin. apply where_from_spec in Hin as [Hle _]. lia.
Qed.

Lemma hits_of_NoDup {G : Type} (s : state G) (prob : Q) (n : nat) :
  NoDup (hits_of s prob n).
Proof. apply where_from_NoDup. Qed.

(** [a[hits] += noise] for indices without repetition: the value at the
    [k]-th index is the old value combined with the [k]-th noise. *)
Lemma assign_at_zip_with {A B : Type} (f : A -> B -> A) (hits : list nat) :
  forall (a cur : list A) (noise : list B) (k i : nat),
    NoDup hits ->
    length cur = length hits ->
    length noise = length hits ->
    hits !! k = Some i ->
    i < length a ->
    exists (c : A) (n : B),
      cur !! k = Some c
      /\ noise !! k = Some n
      /\ assign_at a hits (zip_with f cur noise) !! i = Some (f c n).
Proof.
  induction hits as [| j hits IH];
    intros a cur noise k i Hnodup Hcur Hnoise Hk Hi; [discriminate |].
  destruct cur as [| c cur]; [discriminate |].
  destruct noise as [| n noise]; [discriminate |].
  apply NoDup_cons in Hnodup as [Hj Hnodup]. simpl.
  destruct k as [| k]; simpl in Hk.
  - injection Hk as ->. exists c, n. repeat split.
    rewrite assign_at_other by exact Hj.
    now apply list_lookup_insert_eq.
  - destruct (IH (<[j := f c n]> a) cur noise k i Hnodup) as [c' [n' H]];
      simpl in *; try lia; try assumption.
    + now rewrite length_insert.
    + exists c', n'. exact H.
Qed.

Lemma deviate_finite (raw : N) : is_finite (deviate_of_raw raw) = true.
Proof.
  unfold deviate_of_raw. cbv zeta.
  destruct ((raw / 2 / 2 ^ 52) mod 2047)%N; [| reflexivity].
  now destruct ((raw / 2) mod 2 ^ 52)%N.
Qed.

(** A scale of [0.0] leaves of [loc + scale * g] the float [loc], up to
    the sign of a zero. *)
Lemma noise_without_spread (loc d : float) :
  is_finite d = true ->
  same_up_to_zero_sign (fadd loc (fmul (S754_zero false) d)) loc.
Proof.
  intros Hd. rewrite (fmul_zero_l (S754_zero false) d eq_refl Hd).
  cbn [signbit xorb].
  destruct loc as [[] | | |]; destruct (signbit d);
    first [now left | now right].
Qed.

(** X13.  [NormalDist] without [alpha] and with [sigma] equal to 0.0
    always returns; the noise then is [mu] itself, up to the sign of a
    zero: every selected gene of the returned individual is the float sum
    of the gene of the input and that noise, every other gene is the gene
    of the input, whatever the generator yields. *)
Theorem NormalDist_zero_sigma_adds_mu (self : NormalDist.t)
    (s : state float) (first : ref) (x : Individual float) :
  NormalDist._alpha self = None ->
  NormalDist._sigma self = S754_zero false ->
  heap s !! first = Some x ->
  exists (s' : state float) (y : Individual float),
    NormalDist._process_population self [first] s
    = (Ok [length (heap s)], s')
    /\ heap s' !! length (heap s) = Some y
    /\ forall (i : nat) (g : float),
         genes x !! i = Some g ->
         exists g' : float,
           genes y !! i = Some g'
           /\ if selected s (NormalDist._prob self) i
              then exists noise : float,
                     same_up_to_zero_sign noise (NormalDist._mu self)
                     /\ g' = fadd g noise
              else g' = g.
Proof.
  intros Halpha Hsigma Hx.
  assert (Hle : scale_refused (NormalDist._sigma self) = false)
    by now rewrite Hsigma.
  do 2 eexists.
  split; [apply (NormalDist_eval_fixed_exact self [first] s first x eq_refl
                   Hx Halpha Hle) |].
  cbn [heap]. split; [apply lookup_new |]. cbn [genes].
  intros i g Hg. pose proof (lookup_lt_Some _ _ _ Hg) as Hlt.
  destruct (selected s (NormalDist._prob self) i) eqn:Hsel.
  - assert (Hin : i ∈ hits_of s (NormalDist._prob self) (length (genes x)))
      by (apply where_le_selected; auto).
    apply list_elem_of_lookup_1 in Hin as [k Hk].
    match goal with
    | |- exists g', assign_at _ ?hits (zip_with _ ?cur ?noise) !! _ = _ /\ _ =>
        destruct (assign_at_zip_with fadd hits (genes x) cur noise k i)
          as [c [n [Hc [Hn Hlook]]]]
    end.
    + apply hits_of_NoDup.
    + now rewrite length_map.
    + now rewrite length_map, length_seq.
    + exact Hk.
    + exact Hlt.
    + exists (fadd c n). split; [exact Hlook |].
      rewrite list_lookup_fmap, Hk in Hc. simpl in Hc.
      unfold float in Hc, Hg. rewrite Hg in Hc. injection Hc as <-.
      apply list_lookup_fmap_Some in Hn as [j [-> _]].
      exists (fadd (NormalDist._mu self)
                (fmul (NormalDist._sigma self)
                   (deviate_of_raw
                      (rng_tape s (rng_pos s + length (genes x) + j))))).
      split; [| reflexivity].
      rewrite Hsigma. apply noise_without_spread, deviate_finite.
  - exists g. split; [| reflexivity].
    rewrite unselected_gene_kept by exact Hsel. exact Hg.
Qed.

Lemma NormalDist_zero_sigma_adds_mu_witness :
  exists (s' : state float) (y : Individual float),
    NormalDist._process_population
      {| NormalDist._iter_type := SingleIteration;
         NormalDist._prob := 1;
         NormalDist._mu := float_of_Z 2;
         NormalDist._sigma := S754_zero false;
         NormalDist._alpha := None |} [0]
      (Examples.initial [Examples.floats [float_of_Z 5; float_of_Z 7] []]
         Examples.zeros)
    = (Ok [1], s')
    /\ heap s' !! 1 = Some y
    /\ genes y = [float_of_Z 7; float_of_Z 9].
Proof.
  destruct (NormalDist_zero_sigma_adds_mu
              {| NormalDist._iter_type := SingleIteration;
                 NormalDist._prob := 1;
                 NormalDist._mu := float_of_Z 2;
                 NormalDist._sigma := S754_zero false;
                 NormalDist._alpha := None |}
              (Examples.initial
                 [Examples.floats [float_of_Z 5; float_of_Z 7] []]
                 Examples.zeros)
              0 (Examples.floats [float_of_Z 5; float_of_Z 7] []) eq_refl
              eq_refl eq_refl)
    as [s' [y [Hrun [Hy _]]]].
  exists s', y. split; [exact Hrun |]. split; [exact Hy |].
  vm_compute in Hrun. injection Hrun as <-.
  vm_compute in Hy. injection Hy as <-. reflexivity.
Defined.

(** ** [NormalDist]: the calls that raise *)

Section NormalDistRaises.

Variable self : NormalDist.t.
Variable s : state float.
Variable first : ref.
Variable x : Individual float.
Hypothesis Hx : heap s !! first = Some x.

Lemma NormalDist_frame :
  heap (snd (NormalDist._process_population self [first] s)) !! first
  = Some x.
Proof.
  destruct (NormalDist_copies_on_write self [first] s) as [Hframe _].
  exact (Hframe first x Hx).
Qed.

(** The noise is refused: numpy's [ValueError] for a negative scale. *)
Lemma add_noise_scale_error (h : list (Individual float))
    (y : Individual float) (t : nat -> N) (p : nat) (w : list string)
    (hits : list nat) (sigma : float) :
  (forall i, i ∈ hits -> i < length (genes y)) ->
  scale_refused sigma = true ->
  fst ((current <- get_genes_at (length h) hits ;;
        noise <- normal_n (NormalDist._mu self) sigma (length hits) ;;
        set_genes_at (length h) hits (zip_with fadd current noise) ;;;
        ret (Population_of (length h))) (mkState (h ++ [y]) t p w))
  = Raise (ValueError "scale < 0").
Proof.
  intros Hin Hsigma.
  erewrite bind_ok
    by (apply get_genes_at_new, (values_at_in_range (S754_zero false)), Hin).
  erewrite bind_raise; [reflexivity |].
  apply normal_n_raise, Hsigma.
Qed.

Lemma NormalDist_scale_error_fixed :
  NormalDist._alpha self = None ->
  scale_refused (NormalDist._sigma self) = true ->
  fst (NormalDist._process_population self [first] s)
  = Raise (ValueError "scale < 0").
Proof.
  intros Halpha Hsigma.
  unfold NormalDist._process_population, Population_getitem.
  cbn [lookup list_lookup]. rewrite bind_ret_l.
  erewrite bind_ok by (apply copy_eval, Hx).
  erewrite bind_ok by apply len_genes_new.
  cbn [genes hidden_genes fitness].
  erewrite bind_ok by apply random_sample_n_eval.
  cbv zeta.
  erewrite bind_ok by (apply step_size_fixed, Halpha).
  apply add_noise_scale_error; [| exact Hsigma].
  cbn [genes]. intros i Hi. exact (hits_in_range self s x i Hi).
Qed.

Lemma NormalDist_scale_error_adaptive (alpha h0 : float)
    (rest : list float) :
  NormalDist._alpha self = Some alpha ->
  hidden_genes x = h0 :: rest ->
  is_zero alpha = false ->
  scale_refused h0 = true ->
  fst (NormalDist._process_population self [first] s)
  = Raise (ValueError "scale < 0").
Proof.
  intros Halpha Hhid Hnz Hneg.
  unfold NormalDist._process_population, Population_getitem.
  cbn [lookup list_lookup]. rewrite bind_ret_l.
  erewrite bind_ok by (apply copy_eval, Hx).
  erewrite bind_ok by apply len_genes_new.
  cbn [genes hidden_genes fitness].
  erewrite bind_ok by apply random_sample_n_eval.
  cbv zeta.
  erewrite bind_ok by (apply (step_size_adaptive self); eassumption).
  apply add_noise_scale_error; [| exact Hneg].
  cbn [genes]. intros i Hi. exact (hits_in_range self s x i Hi).
Qed.

(** X14.  [NormalDist] with [alpha] equal to 0.0 or to -0.0, which the
    constructor accepts, raises [ZeroDivisionError] on every individual
    that has a hidden gene 0: the inverse [1/alpha] is computed before the
    factor is chosen.  The caller's individual is as before. *)
Theorem NormalDist_zero_alpha_raises (alpha h0 : float)
    (rest : list float) :
  NormalDist._alpha self = Some alpha ->
  is_zero alpha = true ->
  hidden_genes x = h0 :: rest ->
  fst (NormalDist._process_population self [first] s)
  = Raise (ZeroDivisionError "float division by zero")
  /\ heap (snd (NormalDist._process_population self [first] s)) !! first
     = Some x.
Proof.
  intros Halpha Hzero Hhid. split; [| apply NormalDist_frame].
  unfold NormalDist._process_population, Population_getitem.
  cbn [lookup list_lookup]. rewrite bind_ret_l.
  erewrite bind_ok by (apply copy_eval, Hx).
  erewrite bind_ok by apply len_genes_new.
  cbn [genes hidden_genes fitness].
  erewrite bind_ok by apply random_sample_n_eval.
  cbv zeta.
  erewrite bind_raise; [reflexivity |].
  eapply (step_size_zero_alpha self); eassumption.
Qed.

(** X15.  [NormalDist] without [alpha] and with a [sigma] whose sign bit
    is set (a negative float, the negative infinity or -0.0), which the
    constructor accepts, raises numpy's [ValueError] for a negative scale
    on every individual, whether or not a gene is selected.  The caller's
    individual is as before. *)
Theorem NormalDist_negative_sigma_raises :
  NormalDist._alpha self = None ->
  sign_set (NormalDist._sigma self) = true ->
  fst (NormalDist._process_population self [first] s)
  = Raise (ValueError "scale < 0")
  /\ heap (snd (NormalDist._process_population self [first] s)) !! first
     = Some x.
Proof.
  intros Halpha Hsigma. split; [| apply NormalDist_frame].
  now apply NormalDist_scale_error_fixed.
Qed.

End NormalDistRaises.

Lemma NormalDist_zero_alpha_raises_witness :
  fst (NormalDist._process_population
         {| NormalDist._iter_type := SingleIteration;
            NormalDist._prob := 1;
            NormalDist._mu := S754_zero false;
            NormalDist._sigma := fone;
            NormalDist._alpha := Some (S754_zero false) |} [0]
         (Examples.initial [Examples.floats [float_of_Z 5] [float_of_Z 2]]
            Examples.zeros))
  = Raise (ZeroDivisionError "float division by zero").
Proof.
  exact (proj1 (NormalDist_zero_alpha_raises
                  {| NormalDist._iter_type := SingleIteration;
                     NormalDist._prob := 1;
                     NormalDist._mu := S754_zero false;
                     NormalDist._sigma := fone;
                     NormalDist._alpha := Some (S754_zero false) |}
                  (Examples.initial
                     [Examples.floats [float_of_Z 5] [float_of_Z 2]]
                     Examples.zeros)
                  0 (Examples.floats [float_of_Z 5] [float_of_Z 2]) eq_refl
                  (S754_zero false) (float_of_Z 2) [] eq_refl eq_refl
                  eq_refl)).
Defined.

Lemma NormalDist_negative_sigma_raises_witness :
  fst (NormalDist._process_population
         {| NormalDist._iter_type := SingleIteration;
            NormalDist._prob := 0;
            NormalDist._mu := S754_zero false;
            NormalDist._sigma := float_of_Z (- 1);
            NormalDist._alpha := None |} [0]
         (Examples.initial [Examples.floats [float_of_Z 5] []]
            (fun _ => 1%N)))
  = Raise (ValueError "scale < 0")
  /\ fst (NormalDist._process_population
            {| NormalDist._iter_type := SingleIteration;
               NormalDist._prob := 0;
               NormalDist._mu := S754_zero false;
               NormalDist._sigma := S754_zero true;
               NormalDist._alpha := None |} [0]
            (Examples.initial [Examples.floats [float_of_Z 5] []]
               (fun _ => 1%N)))
     = Raise (ValueError "scale < 0").
Proof.
  split.
  - exact (proj1 (NormalDist_negative_sigma_raises
                    {| NormalDist._iter_type := SingleIteration;
                       NormalDist._prob := 0;
                       NormalDist._mu := S754_zero false;
                       NormalDist._sigma := float_of_Z (- 1);
                       NormalDist._alpha := None |}
                    (Examples.initial [Examples.floats [float_of_Z 5] []]
                       (fun _ => 1%N))
                    0 (Examples.floats [float_of_Z 5] []) eq_refl eq_refl
                    eq_refl)).
  - exact (proj1 (NormalDist_negative_sigma_raises
                    {| NormalDist._iter_type := SingleIteration;
                       NormalDist._prob := 0;
                       NormalDist._mu := S754_zero false;
                       NormalDist._sigma := S754_zero true;
                       NormalDist._alpha := None |}
                    (Examples.initial [Examples.floats [float_of_Z 5] []]
                       (fun _ => 1%N))
                    0 (Examples.floats [float_of_Z 5] []) eq_refl eq_refl
                    eq_refl)).
Defined.

(** ** [NormalDist]: the sign of the stored step size *)

(** Both factors of an [alpha] whose sign bit is set have it set. *)
Lemma factor_negative (alpha : float) (raw : N) :
  sign_set alpha = true -> sign_set (factor_of_raw alpha raw) = true.
Proof.
  intros H. destruct (factor_of_raw_cases alpha raw) as [-> | ->];
    [exact H |].
  apply sign_set_spec in H as [Hnan Hsign].
  destruct (finverse_sign alpha Hnan) as [Hn Hs].
  apply sign_set_spec. split; [exact Hn | now rewrite Hs].
Qed.

(** Both factors of a finite [alpha] that is not zero and whose inverse is
    finite are finite and have the sign of [alpha]. *)
Lemma factor_finite (alpha : float) (raw : N) :
  is_finite_nonzero alpha = true ->
  is_finite (fdiv fone alpha) = true ->
  is_finite (factor_of_raw alpha raw) = true
  /\ signbit (factor_of_raw alpha raw) = signbit alpha.
Proof.
  intros Ha Hinv.
  destruct (factor_of_raw_cases alpha raw) as [-> | ->].
  - split; [now destruct alpha | reflexivity].
  - split; [exact Hinv |]. apply finverse_sign. now destruct alpha.
Qed.

Lemma finite_nonzero_not_zero (x : float) :
  is_finite_nonzero x = true -> is_zero x = false.
Proof. now destruct x. Qed.

(** X16.  The stored step size 0.0, for a finite [alpha] other than zero
    whose inverse is finite too.  With a positive [alpha] it is absorbing:
    any number of successive applications return, and the stored step
    size of the last individual is 0.0 again.  With a negative [alpha] the
    first application returns and stores -0.0, and the application to its
    result raises numpy's [ValueError] for a negative scale. *)
Theorem NormalDist_zero_step_is_absorbing (self : NormalDist.t)
    (alpha : float) (s : state float) (first : ref) (x : Individual float)
    (rest : list float) :
  NormalDist._alpha self = Some alpha ->
  is_finite_nonzero alpha = true ->
  is_finite (fdiv fone alpha) = true ->
  heap s !! first = Some x ->
  hidden_genes x = S754_zero false :: rest ->
  (signbit alpha = false ->
   forall n : nat,
   exists (last : ref) (y : Individual float) (s' : state float),
     NormalDist_apply_n self n [first] s = (Ok [last], s')
     /\ heap s' !! last = Some y
     /\ hidden_genes y = S754_zero false :: rest)
  /\ (signbit alpha = true ->
      (exists (s1 : state float) (y : Individual float),
         NormalDist._process_population self [first] s
         = (Ok [length (heap s)], s1)
         /\ heap s1 !! length (heap s) = Some y
         /\ hidden_genes y = S754_zero true :: rest)
      /\ fst (NormalDist_apply_n self 2 [first] s)
         = Raise (ValueError "scale < 0")).
Proof.
  intros Halpha Hfin Hinv Hx Hhid.
  pose proof (finite_nonzero_not_zero alpha Hfin) as Hnz.
  assert (Hstep : forall raw : N,
             fmul (S754_zero false) (factor_of_raw alpha raw)
             = S754_zero (signbit alpha)).
  { intros raw. destruct (factor_finite alpha raw Hfin Hinv) as [Hf Hs].
    rewrite (fmul_zero_l (S754_zero false) _ eq_refl Hf), Hs.
    reflexivity. }
  split; intros Hsign.
  - intros n.
    assert (Hscale : forall h : float,
               h = S754_zero false -> scale_refused h = false)
      by now intros h ->.
    assert (Hkeep : forall (h : float) (raw : N),
               h = S754_zero false ->
               fmul h (factor_of_raw alpha raw) = S754_zero false).
    { intros h raw ->. now rewrite Hstep, Hsign. }
    destruct (NormalDist_apply_n_invariant (fun h => h = S754_zero false)
                self alpha Halpha Hnz Hscale Hkeep n s first x
                (S754_zero false) rest Hx Hhid eq_refl)
      as [last [y [h' [s' [Hrun [Hy [Hhid' ->]]]]]]].
    now exists last, y, s'.
  - destruct (NormalDist_eval_adaptive self [first] s first x eq_refl Hx
                alpha (S754_zero false) rest Halpha Hhid Hnz eq_refl)
      as [vals [k Heval]].
    rewrite Hstep, Hsign in Heval.
    split.
    + do 2 eexists. split; [exact Heval |]. cbn [heap].
      split; [apply lookup_new | reflexivity].
    + simpl. erewrite bind_ok by exact Heval.
      match goal with
      | |- fst (bind ?m ?k ?s1) = _ =>
          destruct (m s1) as [r s2] eqn:Hcall;
          assert (Hr : fst (m s1) = Raise (ValueError "scale < 0"))
      end.
      { eapply NormalDist_scale_error_adaptive;
          [cbn [heap]; apply lookup_new | exact Halpha | reflexivity
          | exact Hnz | reflexivity]. }
      rewrite Hcall in Hr. simpl in Hr. subst r.
      erewrite bind_raise by exact Hcall. reflexivity.
Qed.

Lemma NormalDist_zero_step_is_absorbing_witness :
  (exists (last : ref) (y : Individual float) (s' : state float),
     NormalDist_apply_n Examples.adaptive 3 [0]
       (Examples.initial [Examples.floats [float_of_Z 5] [S754_zero false]]
          Examples.zeros)
     = (Ok [last], s')
     /\ heap s' !! last = Some y
     /\ hidden_genes y = [S754_zero false])
  /\ fst (NormalDist_apply_n
            {| NormalDist._iter_type := SingleIteration;
               NormalDist._prob := 1;
               NormalDist._mu := S754_zero false;
               NormalDist._sigma := fone;
               NormalDist._alpha := Some (float_of_Z (- 2)) |} 2 [0]
            (Examples.initial
               [Examples.floats [float_of_Z 5] [S754_zero false]]
               Examples.zeros))
     = Raise (ValueError "scale < 0").
Proof.
  split.
  - exact (proj1 (NormalDist_zero_step_is_absorbing Examples.adaptive
                    (float_of_Z 3)
                    (Examples.initial
                       [Examples.floats [float_of_Z 5] [S754_zero false]]
                       Examples.zeros)
                    0 (Examples.floats [float_of_Z 5] [S754_zero false]) []
                    eq_refl eq_refl eq_refl eq_refl eq_refl)
             eq_refl 3).
  - exact (proj2 (proj2 (NormalDist_zero_step_is_absorbing
                           {| NormalDist._iter_type := SingleIteration;
                              NormalDist._prob := 1;
                              NormalDist._mu := S754_zero false;
                              NormalDist._sigma := fone;
                              NormalDist._alpha :=
                                Some (float_of_Z (- 2)) |}
                           (float_of_Z (- 2))
                           (Examples.initial
                              [Examples.floats [float_of_Z 5]
                                 [S754_zero false]]
                              Examples.zeros)
                           0
                           (Examples.floats [float_of_Z 5]
                              [S754_zero false])
                           [] eq_refl eq_refl eq_refl eq_refl eq_refl)
                    eq_refl)).
Defined.

(** X17.  With a positive finite [alpha] whose inverse is finite and not
    zero, a stored step size that is not NaN and has a clear sign bit
    stays so: any number of successive applications return, and the
    stored step size of the last individual is not NaN and has a clear
    sign bit, so that numpy accepts it as a scale. *)
Theorem NormalDist_step_sign_stays_clear (self : NormalDist.t)
    (alpha : float) (n : nat) (s : state float) (first : ref)
    (x : Individual float) (h0 : float) (rest : list float) :
  NormalDist._alpha self = Some alpha ->
  is_positive_finite alpha = true ->
  is_finite_nonzero (fdiv fone alpha) = true ->
  heap s !! first = Some x ->
  hidden_genes x = h0 :: rest ->
  sign_clear h0 = true ->
  exists (last : ref) (y : Individual float) (h' : float)
         (s' : state float),
    NormalDist_apply_n self n [first] s = (Ok [last], s')
    /\ heap s' !! last = Some y
    /\ hidden_genes y = h' :: rest
    /\ sign_clear h' = true.
Proof.
  intros Halpha Hpos Hinv Hx Hhid Hh0.
  exact (NormalDist_apply_n_invariant (fun h => sign_clear h = true)
           self alpha Halpha (positive_finite_not_zero alpha Hpos)
           sign_clear_accepted
           (fun h raw Hh =>
              sign_clear_fmul h _ Hh (factor_positive alpha raw Hpos Hinv))
           n s first x h0 rest Hx Hhid Hh0).
Qed.

Lemma NormalDist_step_sign_stays_clear_witness :
  exists (last : ref) (y : Individual float) (h' : float)
         (s' : state float),
    NormalDist_apply_n Examples.adaptive 3 [0]
      (Examples.initial [Examples.floats [float_of_Z 5] [float_of_Z 2]]
         Examples.zeros)
    = (Ok [last], s')
    /\ heap s' !! last = Some y
    /\ hidden_genes y = [h']
    /\ sign_clear h' = true.
Proof.
  apply (NormalDist_step_sign_stays_clear Examples.adaptive (float_of_Z 3) 3
           (Examples.initial [Examples.floats [float_of_Z 5] [float_of_Z 2]]
              Examples.zeros)
           0 (Examples.floats [float_of_Z 5] [float_of_Z 2]) (float_of_Z 2)
           []);
    reflexivity.
Defined.

(** X18.  A negative [alpha], which the constructor accepts, breaks the
    second application: on an individual with a positive finite stored
    step size the first call returns and stores a step size whose sign bit
    is set, and the call on its result raises numpy's [ValueError] for a
    negative scale. *)
Theorem NormalDist_negative_alpha_second_call_raises (self : NormalDist.t)
    (alpha : float) (s : state float) (first : ref) (x : Individual float)
    (h0 : float) (rest : list float) :
  NormalDist._alpha self = Some alpha ->
  sign_set alpha = true ->
  is_zero alpha = false ->
  heap s !! first = Some x ->
  hidden_genes x = h0 :: rest ->
  is_positive_finite h0 = true ->
  (exists (s1 : state float) (y : Individual float) (h1 : float),
     NormalDist._process_population self [first] s
     = (Ok [length (heap s)], s1)
     /\ heap s1 !! length (heap s) = Some y
     /\ hidden_genes y = h1 :: rest
     /\ sign_set h1 = true)
  /\ fst (NormalDist_apply_n self 2 [first] s)
     = Raise (ValueError "scale < 0").
Proof.
  intros Halpha Hneg Hnz Hx Hhid Hh0.
  apply positive_finite_spec in Hh0 as [Hfin Hsign].
  assert (Hok : scale_refused h0 = false)
    by (destruct h0 as [| | | [] ? ?]; now try discriminate).
  destruct (NormalDist_eval_adaptive self [first] s first x eq_refl Hx
              alpha h0 rest Halpha Hhid Hnz Hok)
    as [vals [k Heval]].
  set (f := factor_of_raw alpha (rng_tape s (rng_pos s + length (genes x))))
    in *.
  assert (Hh1 : sign_set (fmul h0 f) = true).
  { pose proof (factor_negative alpha
                  (rng_tape s (rng_pos s + length (genes x))) Hneg) as Hf.
    fold f in Hf. apply sign_set_spec in Hf as [Hfn Hfs].
    destruct (fmul_sign_l h0 f Hfin Hfn) as [Hn Hs].
    apply sign_set_spec. split; [exact Hn |].
    now rewrite Hs, Hsign, Hfs. }
  split.
  - do 3 eexists. split; [exact Heval |]. cbn [heap].
    split; [apply lookup_new |]. split; [reflexivity | exact Hh1].
  - simpl. erewrite bind_ok by exact Heval.
    match goal with
    | |- fst (bind ?m ?k ?s1) = _ =>
        destruct (m s1) as [r s2] eqn:Hcall;
        assert (Hr : fst (m s1) = Raise (ValueError "scale < 0"))
    end.
    { eapply NormalDist_scale_error_adaptive;
        [cbn [heap]; apply lookup_new | exact Halpha | reflexivity
        | exact Hnz | exact Hh1]. }
    rewrite Hcall in Hr. simpl in Hr. subst r.
    erewrite bind_raise by exact Hcall. reflexivity.
Qed.

Lemma NormalDist_negative_alpha_second_call_raises_witness :
  fst (NormalDist_apply_n
         {| NormalDist._iter_type := SingleIteration;
            NormalDist._prob := 1;
            NormalDist._mu := S754_zero false;
            NormalDist._sigma := fone;
            NormalDist._alpha := Some (float_of_Z (- 2)) |} 2 [0]
         (Examples.initial [Examples.floats [float_of_Z 5] [float_of_Z 2]]
            Examples.zeros))
  = Raise (ValueError "scale < 0").
Proof.
  exact (proj2 (NormalDist_negative_alpha_second_call_raises
                  {| NormalDist._iter_type := SingleIteration;
                     NormalDist._prob := 1;
                     NormalDist._mu := S754_zero false;
                     NormalDist._sigma := fone;
                     NormalDist._alpha := Some (float_of_Z (- 2)) |}
                  (float_of_Z (- 2))
                  (Examples.initial
                     [Examples.floats [float_of_Z 5] [float_of_Z 2]]
                     Examples.zeros)
                  0 (Examples.floats [float_of_Z 5] [float_of_Z 2])
                  (float_of_Z 2) [] eq_refl eq_refl eq_refl eq_refl eq_refl
                  eq_refl)).
Defined.

(** ** operator.py: the representation of a chain *)

Lemma string_app_assoc (a b c : string) :
  ((a ++ b) ++ c)%string = (a ++ b ++ c)%string.
Proof.
  induction a as [| ch a IH]; simpl; [reflexivity | now rewrite IH].
Qed.

Lemma join_app (sep : string) (xs ys : list string) :
  xs <> [] -> ys <> [] ->
  join sep (xs ++ ys) = (join sep xs ++ sep ++ join sep ys)%string.
Proof.
  intros Hxs Hys. induction xs as [| x [| x' xs] IH]; [congruence | |].
  - destruct ys as [| y ys]; [congruence | reflexivity].
  - change (join sep ((x :: x' :: xs) ++ ys))
      with (x ++ sep ++ join sep ((x' :: xs) ++ ys))%string.
    rewrite IH by discriminate.
    change (join sep (x :: x' :: xs))
      with (x ++ sep ++ join sep (x' :: xs))%string.
    now rewrite !string_app_assoc.
Qed.

(** X19.  The representation of a chain follows its steps: for two lists
    of steps that are not empty, the chain of the first followed by the
    second is represented by the two representations joined by [" - "];
    a chain of one operator is represented by the name of its class, and
    the chain without steps by the empty string. *)
Theorem chain_repr_append {G : Type}
    (steps1 steps2 : list (OperatorChain.step G)) :
  steps1 <> [] -> steps2 <> [] ->
  OperatorChain_repr {| OperatorChain._operators := steps1 ++ steps2 |}
  = (OperatorChain_repr {| OperatorChain._operators := steps1 |}
     ++ " - "
     ++ OperatorChain_repr {| OperatorChain._operators := steps2 |})%string
  /\ (forall operator : Operator.t G,
        OperatorChain_repr
          {| OperatorChain._operators := [OperatorChain.Single operator] |}
        = Operator.class_name operator)
  /\ OperatorChain_repr (G := G) {| OperatorChain._operators := [] |}
     = ""%string.
Proof.
  intros H1 H2. split; [| split; reflexivity].
  unfold OperatorChain_repr. cbn [OperatorChain._operators].
  rewrite map_app. apply join_app.
  - destruct steps1; [congruence | discriminate].
  - destruct steps2; [congruence | discriminate].
Qed.

Lemma chain_repr_append_witness :
  OperatorChain_repr
    {| OperatorChain._operators :=
         [OperatorChain.Single (BitFlip.as_operator Examples.flip_always)]
         ++ [OperatorChain.Alternatives
               [Examples.operator; Examples.operator]] |}
  = "BitFlip - (Operator | Operator)"%string.
Proof.
  exact (proj1 (chain_repr_append
                  [OperatorChain.Single
                     (BitFlip.as_operator Examples.flip_always)]
                  [OperatorChain.Alternatives
                     [Examples.operator; Examples.operator]]
                  ltac:(discriminate) ltac:(discriminate))).
Defined.
